(** * AR try-on pipeline of the sneaker customizer (src/main.js)

    A shallow embedding of the per-frame foot tracking code: the landmark
    validation and the frame handler [onPoseResults], the placement code
    [positionARShoe], the overlay drawing helpers and the session exit
    [exitARMode], followed by the properties proved about them.

    JavaScript numbers are idealised as real numbers: every arithmetic
    expression of the source is kept as written, rounding and NaN are not
    modelled.  The module-level [let] variables of the source become the
    fields of one explicit state record which every function threads. *)

From Stdlib Require Import Reals Lra List String Ascii ZArith NArith Bool Lia.
Import ListNotations.
Open Scope R_scope.

(** ** The JavaScript built-ins the code calls *)

Module JS.

(** [a > b] on numbers. *)
Definition gt (a b : R) : bool := if Rlt_dec b a then true else false.

(** Truthiness of a value that is either an object or [null]. *)
Definition truthy {A : Type} (o : option A) : bool :=
  match o with Some _ => true | None => false end.

Definition Math_PI : R := PI.
Definition Math_max (a b : R) : R := Rmax a b.
Definition Math_min (a b : R) : R := Rmin a b.
Definition Math_sqrt (a : R) : R := sqrt a.
Definition Math_pow (base : R) (exponent : nat) : R := base ^ exponent.

(** [Math.atan2(y, x)]: the angle of the point [(x, y)], by quadrant. *)
Definition Math_atan2 (b a : R) : R :=
  if Rlt_dec 0 a then atan (b / a)
  else if Rlt_dec a 0 then
    (if Rlt_dec b 0 then atan (b / a) - PI else atan (b / a) + PI)
  else if Rlt_dec 0 b then PI / 2
  else if Rlt_dec b 0 then - (PI / 2)
  else 0.

End JS.
Import JS.

(** ** Data *)

(** A pose landmark as MediaPipe delivers it. *)
Record Landmark := mkLandmark { x : R; y : R; z : R; visibility : R }.

(** The argument of the pose callback: [poseLandmarks] may be missing, and
    an array slot may hold no object (the source reads it with [?.]). *)
Record PoseResults := { poseLandmarks : option (list (option Landmark)) }.

(** THREE.Vector3 and THREE.Euler, by their three components. *)
Record Vector3 := mkVector3 { vx : R; vy : R; vz : R }.

(** The part of a THREE.Object3D the AR code reads and writes. *)
Record Object3D := mkObject3D {
  position : Vector3;
  rotation : Vector3;
  scale : Vector3;
  visible : bool }.

(** What the 2D overlay context has painted since it was last cleared. *)
Inductive DrawOp :=
| FillArc (cx cy radius : R) (fillStyle : string)
| StrokeArc (cx cy radius : R) (strokeStyle : string) (lineWidth : R)
| StrokeLine (x1 y1 x2 y2 : R) (strokeStyle : string) (lineWidth : R)
             (lineDash : list R)
| FillText (text : string) (tx ty : R) (fillStyle : string).

Record Canvas := { width : Z; height : Z }.
Record Context2D := { painted : list DrawOp }.

(** The WebGL canvas: its size and the shoe drawn by the last render, if a
    visible one was drawn since the canvas was last resized. *)
Record GLCanvas := { gl_width : Z; gl_height : Z; gl_frame : option Object3D }.

Record Camera := { aspect : R }.
Record Renderer := { size : Z * Z }.

Inductive TrackState := live | ended.
Definition MediaStream := list TrackState.

Record Video := {
  videoWidth : Z;
  videoHeight : Z;
  srcObject : option nat }.

(** The elements the AR code looks up by id; [None] when
    [document.getElementById] finds nothing. *)
Record StatusElement := { textContent : string; className : string }.

Record Document := {
  ar_status : option StatusElement;
  ar_container : option bool;         (* classList contains 'hidden' *)
  scene_container : option string;    (* style.display *)
  customization_panel : option bool;  (* classList contains 'ar-active' *)
  ar_mode_btn : option bool;          (* classList contains 'hidden' *)
  normal_mode_btn : option bool;
  export_btn : option bool;
  ar_capture_btn : option bool }.

(** The AR mode variables of the module, the page, and the media streams
    the page holds (a stream is referred to by its index in [streams]). *)
Record ARState := {
  document : Document;
  streams : list MediaStream;
  isARMode : bool;
  arVideo : option Video;
  arOverlayCanvas : option Canvas;
  arOverlayContext : option Context2D;
  ar3DCanvas : option GLCanvas;
  arCamera : option Camera;
  arRenderer : option Renderer;
  arScene : option unit;
  arShoeModel : option Object3D;
  videoStream : option nat }.

(** *** Field updates *)

Definition set_document (d : Document) (s : ARState) : ARState :=
  {| document := d; streams := streams s; isARMode := isARMode s;
     arVideo := arVideo s; arOverlayCanvas := arOverlayCanvas s;
     arOverlayContext := arOverlayContext s; ar3DCanvas := ar3DCanvas s;
     arCamera := arCamera s; arRenderer := arRenderer s; arScene := arScene s;
     arShoeModel := arShoeModel s; videoStream := videoStream s |}.

Definition set_streams (l : list MediaStream) (s : ARState) : ARState :=
  {| document := document s; streams := l; isARMode := isARMode s;
     arVideo := arVideo s; arOverlayCanvas := arOverlayCanvas s;
     arOverlayContext := arOverlayContext s; ar3DCanvas := ar3DCanvas s;
     arCamera := arCamera s; arRenderer := arRenderer s; arScene := arScene s;
     arShoeModel := arShoeModel s; videoStream := videoStream s |}.

Definition set_isARMode (b : bool) (s : ARState) : ARState :=
  {| document := document s; streams := streams s; isARMode := b;
     arVideo := arVideo s; arOverlayCanvas := arOverlayCanvas s;
     arOverlayContext := arOverlayContext s; ar3DCanvas := ar3DCanvas s;
     arCamera := arCamera s; arRenderer := arRenderer s; arScene := arScene s;
     arShoeModel := arShoeModel s; videoStream := videoStream s |}.

Definition set_arOverlayCanvas (c : option Canvas) (s : ARState) : ARState :=
  {| document := document s; streams := streams s; isARMode := isARMode s;
     arVideo := arVideo s; arOverlayCanvas := c;
     arOverlayContext := arOverlayContext s; ar3DCanvas := ar3DCanvas s;
     arCamera := arCamera s; arRenderer := arRenderer s; arScene := arScene s;
     arShoeModel := arShoeModel s; videoStream := videoStream s |}.

Definition set_arOverlayContext (c : option Context2D) (s : ARState)
  : ARState :=
  {| document := document s; streams := streams s; isARMode := isARMode s;
     arVideo := arVideo s; arOverlayCanvas := arOverlayCanvas s;
     arOverlayContext := c; ar3DCanvas := ar3DCanvas s;
     arCamera := arCamera s; arRenderer := arRenderer s; arScene := arScene s;
     arShoeModel := arShoeModel s; videoStream := videoStream s |}.

Definition set_ar3DCanvas (c : option GLCanvas) (s : ARState) : ARState :=
  {| document := document s; streams := streams s; isARMode := isARMode s;
     arVideo := arVideo s; arOverlayCanvas := arOverlayCanvas s;
     arOverlayContext := arOverlayContext s; ar3DCanvas := c;
     arCamera := arCamera s; arRenderer := arRenderer s; arScene := arScene s;
     arShoeModel := arShoeModel s; videoStream := videoStream s |}.

Definition set_arCamera (c : option Camera) (s : ARState) : ARState :=
  {| document := document s; streams := streams s; isARMode := isARMode s;
     arVideo := arVideo s; arOverlayCanvas := arOverlayCanvas s;
     arOverlayContext := arOverlayContext s; ar3DCanvas := ar3DCanvas s;
     arCamera := c; arRenderer := arRenderer s; arScene := arScene s;
     arShoeModel := arShoeModel s; videoStream := videoStream s |}.

Definition set_arRenderer (r : option Renderer) (s : ARState) : ARState :=
  {| document := document s; streams := streams s; isARMode := isARMode s;
     arVideo := arVideo s; arOverlayCanvas := arOverlayCanvas s;
     arOverlayContext := arOverlayContext s; ar3DCanvas := ar3DCanvas s;
     arCamera := arCamera s; arRenderer := r; arScene := arScene s;
     arShoeModel := arShoeModel s; videoStream := videoStream s |}.

Definition set_arShoeModel (m : option Object3D) (s : ARState) : ARState :=
  {| document := document s; streams := streams s; isARMode := isARMode s;
     arVideo := arVideo s; arOverlayCanvas := arOverlayCanvas s;
     arOverlayContext := arOverlayContext s; ar3DCanvas := ar3DCanvas s;
     arCamera := arCamera s; arRenderer := arRenderer s; arScene := arScene s;
     arShoeModel := m; videoStream := videoStream s |}.

Definition set_videoStream (v : option nat) (s : ARState) : ARState :=
  {| document := document s; streams := streams s; isARMode := isARMode s;
     arVideo := arVideo s; arOverlayCanvas := arOverlayCanvas s;
     arOverlayContext := arOverlayContext s; ar3DCanvas := ar3DCanvas s;
     arCamera := arCamera s; arRenderer := arRenderer s; arScene := arScene s;
     arShoeModel := arShoeModel s; videoStream := v |}.

Definition set_visible (b : bool) (m : Object3D) : Object3D :=
  {| position := position m; rotation := rotation m; scale := scale m;
     visible := b |}.

Definition set_vy (v : R) (e : Vector3) : Vector3 :=
  {| vx := vx e; vy := v; vz := vz e |}.

Definition set_ar_status (e : option StatusElement) (d : Document)
  : Document :=
  {| ar_status := e; ar_container := ar_container d;
     scene_container := scene_container d;
     customization_panel := customization_panel d;
     ar_mode_btn := ar_mode_btn d; normal_mode_btn := normal_mode_btn d;
     export_btn := export_btn d; ar_capture_btn := ar_capture_btn d |}.

(** ** Status line *)

Open Scope string_scope.

(** [updateARStatus(message, type)]: nothing happens when the page has no
    [ar-status] element. *)
Definition updateARStatus (message type : string) (s : ARState) : ARState :=
  match ar_status (document s) with
  | Some _ =>
      set_document
        (set_ar_status
           (Some {| textContent := message;
                    className := "ar-status " ++ type |})
           (document s)) s
  | None => s
  end.

(** ** Leaving AR mode *)

(** [stream.getTracks().forEach(track => track.stop())] on stream [i]. *)
Fixpoint stopTracks (i : nat) (l : list MediaStream) : list MediaStream :=
  match l, i with
  | [], _ => []
  | st :: rest, O => map (fun _ => ended) st :: rest
  | st :: rest, S j => st :: stopTracks j rest
  end.

Definition hideARInterface (s : ARState) : ARState :=
  let d := document s in
  set_document
    {| ar_status := ar_status d;
       ar_container := option_map (fun _ => true) (ar_container d);
       scene_container := option_map (fun _ => "block") (scene_container d);
       customization_panel :=
         option_map (fun _ => false) (customization_panel d);
       ar_mode_btn := option_map (fun _ => false) (ar_mode_btn d);
       normal_mode_btn := option_map (fun _ => true) (normal_mode_btn d);
       export_btn := option_map (fun _ => false) (export_btn d);
       ar_capture_btn := option_map (fun _ => true) (ar_capture_btn d) |} s.

Definition exitARMode (s : ARState) : ARState :=
  (* Stop camera stream *)
  let s := match videoStream s with
           | Some i =>
               set_videoStream None
                 (set_streams (stopTracks i (streams s)) s)
           | None => s
           end in
  (* Hide AR UI *)
  let s := hideARInterface s in
  (* Reset AR status *)
  let s := updateARStatus "Looking for feet..." "" s in
  set_isARMode false s.

(** ** Canvases *)

(** [resizeARCanvases]: assigning a canvas its width and height also
    resets what is drawn on it. *)
Definition resizeARCanvases (s : ARState) : ARState :=
  match arVideo s, arOverlayCanvas s, ar3DCanvas s with
  | Some video, Some _, Some _ =>
      let w := videoWidth video in
      let h := videoHeight video in
      if negb (w =? 0)%Z && negb (h =? 0)%Z then
        let s := set_arOverlayCanvas (Some {| width := w; height := h |}) s in
        let s := set_arOverlayContext
                   (option_map (fun _ => {| painted := [] |})
                      (arOverlayContext s)) s in
        let s := set_ar3DCanvas
                   (Some {| gl_width := w; gl_height := h;
                            gl_frame := None |}) s in
        let s := match arCamera s with
                 | Some _ => set_arCamera (Some {| aspect := IZR w / IZR h |}) s
                 | None => s
                 end in
        match arRenderer s with
        | Some _ => set_arRenderer (Some {| size := (w, h) |}) s
        | None => s
        end
      else s
  | _, _, _ => s
  end.

(** [arOverlayContext.clearRect(0, 0, width, height)]. *)
Definition clearRect (s : ARState) : ARState :=
  set_arOverlayContext
    (option_map (fun _ => {| painted := [] |}) (arOverlayContext s)) s.

(** [arRenderer.render(arScene, arCamera)], guarded as at its call site:
    the scene holds the shoe model, which is drawn when it is visible. *)
Definition render (s : ARState) : ARState :=
  match arRenderer s, arScene s, arCamera s with
  | Some _, Some _, Some _ =>
      match ar3DCanvas s with
      | Some c =>
          set_ar3DCanvas
            (Some {| gl_width := gl_width c; gl_height := gl_height c;
                     gl_frame :=
                       match arShoeModel s with
                       | Some m => if visible m then Some m else None
                       | None => None
                       end |}) s
      | None => s
      end
  | _, _, _ => s
  end.

(** ** Overlay drawing *)

Definition paint (ops : list DrawOp) (s : ARState) : ARState :=
  match arOverlayContext s with
  | Some ctx =>
      set_arOverlayContext (Some {| painted := painted ctx ++ ops |}) s
  | None => s
  end.

Definition canvasWidth (s : ARState) : R :=
  match arOverlayCanvas s with Some c => IZR (width c) | None => 0%R end.

Definition canvasHeight (s : ARState) : R :=
  match arOverlayCanvas s with Some c => IZR (height c) | None => 0%R end.

Definition drawPoseDetectionIndicator (s : ARState) : ARState :=
  let centerX := (canvasWidth s / 2)%R in
  let centerY := (canvasHeight s / 2)%R in
  paint [FillText "📸 Pose detection active" centerX (centerY - 40)%R
           "rgba(255, 255, 0, 0.7)";
         FillText "Point camera at your feet" centerX (centerY - 20)%R
           "rgba(255, 255, 0, 0.7)"] s.

Definition drawNoPoseIndicator (s : ARState) : ARState :=
  let centerX := (canvasWidth s / 2)%R in
  let centerY := (canvasHeight s / 2)%R in
  paint [FillText "⚠️ Looking for person..." centerX (centerY - 20)%R
           "rgba(255, 107, 107, 0.7)";
         FillText "Make sure you are in the camera view" centerX centerY
           "rgba(255, 107, 107, 0.7)"] s.

Definition drawFootPoint (px py : R) (label color : string) (s : ARState)
  : ARState :=
  paint [FillArc px py 10 color;
         StrokeArc px py 10 "#ffffff" 2;
         FillText label (px + 15)%R (py + 5)%R "#ffffff"] s.

Definition drawFootConnection (ankle footIndex : Landmark)
    (canvasWidth canvasHeight : R) (color : string) (s : ARState) : ARState :=
  let ankleX := (x ankle * canvasWidth)%R in
  let ankleY := (y ankle * canvasHeight)%R in
  let footX := (x footIndex * canvasWidth)%R in
  let footY := (y footIndex * canvasHeight)%R in
  paint [StrokeLine ankleX ankleY footX footY color 3 [5%R; 5%R]] s.

(** One [if (landmark) { ... drawFootPoint(...) }] of [drawFootIndicators]. *)
Definition drawIfPresent (lm : option Landmark) (label color : string)
    (s : ARState) : ARState :=
  match lm with
  | Some l =>
      drawFootPoint (x l * canvasWidth s)%R (y l * canvasHeight s)%R
        label color s
  | None => s
  end.

Definition drawFootIndicators
    (leftAnkle rightAnkle leftFootIndex rightFootIndex : option Landmark)
    (s : ARState) : ARState :=
  let s := drawIfPresent leftAnkle "L👣" "#00ff00" s in
  let s := drawIfPresent rightAnkle "R👣" "#00ff00" s in
  let s := drawIfPresent leftFootIndex "L👟" "#ff6b6b" s in
  let s := drawIfPresent rightFootIndex "R👟" "#ff6b6b" s in
  match rightAnkle, rightFootIndex with
  | Some ra, Some rf =>
      drawFootConnection ra rf (canvasWidth s) (canvasHeight s) "#00ff00" s
  | _, _ =>
      match leftAnkle, leftFootIndex with
      | Some la, Some lf =>
          drawFootConnection la lf (canvasWidth s) (canvasHeight s)
            "#00ff00" s
      | _, _ => s
      end
  end.

Close Scope string_scope.

(** ** Placing the shoe *)

(** The choice of foot at the head of [positionARShoe]: the ankle, the foot
    index and [isLeftFoot], the first two [null] when no foot is chosen. *)
Definition selectFoot
    (leftAnkle rightAnkle leftFootIndex rightFootIndex : option Landmark)
  : option Landmark * option Landmark * bool :=
  (* Prefer right foot, but use left if right is not available *)
  if truthy rightAnkle && truthy rightFootIndex then
    (rightAnkle, rightFootIndex, false)
  else if truthy leftAnkle && truthy leftFootIndex then
    (leftAnkle, leftFootIndex, true)
  else (None, None, false).

(** The block of [positionARShoe] guarded by [if (ankle && footIndex)]: it
    sets the position, the rotation, the scale and the visibility of the
    shoe model, so the resulting object is built from those four. *)
Definition placeShoe (ankle footIndex : Landmark) (isLeftFoot : bool)
  : Object3D :=
  (* foot center position (between ankle and foot index) *)
  let footCenterX := (x ankle + x footIndex) / 2 in
  let footCenterY := (y ankle + y footIndex) / 2 in
  (* normalized coordinates to 3D world position *)
  let screenX := (footCenterX - 0.5) * 6 in
  let screenY := - (footCenterY - 0.5) * 6 in
  (* slightly forward from the foot center *)
  let footForwardOffset := 0.2 in
  let offsetX := (x footIndex - x ankle) * footForwardOffset in
  let offsetY := - (y footIndex - y ankle) * footForwardOffset in
  let finalX := screenX + offsetX in
  let finalY := screenY + offsetY in
  let finalZ := -2 in
  let position' := mkVector3 finalX finalY finalZ in
  (* foot orientation *)
  let footDirection := (x footIndex - x ankle, y footIndex - y ankle) in
  let footAngle := Math_atan2 (snd footDirection) (fst footDirection) in
  let rotation' := mkVector3 0 0 (- footAngle) in
  (* mirror shoe for left foot *)
  let rotation' :=
    if isLeftFoot then set_vy Math_PI rotation' else set_vy 0 rotation' in
  (* scale from the distance between ankle and foot index *)
  let footLength :=
    Math_sqrt (Math_pow (x footIndex - x ankle) 2 +
               Math_pow (y footIndex - y ankle) 2) in
  let dynamicScale := Math_max 0.05 (Math_min 0.15 (footLength * 2)) in
  let scale' := mkVector3 dynamicScale dynamicScale dynamicScale in
  {| position := position'; rotation := rotation'; scale := scale';
     visible := true |}.

Definition positionARShoe
    (leftAnkle rightAnkle leftFootIndex rightFootIndex : option Landmark)
    (s : ARState) : ARState :=
  match arShoeModel s, arCamera s with
  | Some model, Some _ =>
      match selectFoot leftAnkle rightAnkle leftFootIndex rightFootIndex with
      | (Some ankle, Some footIndex, isLeftFoot) =>
          set_arShoeModel (Some (placeShoe ankle footIndex isLeftFoot)) s
      | _ =>
          (* Hide shoe if foot landmarks are not available *)
          set_arShoeModel (Some (set_visible false model)) s
      end
  | _, _ => s
  end.

(** ** The pose callback *)

(** [landmarks[i]?.visibility > 0.5 ? landmarks[i] : null]. *)
Definition visibleLandmark (landmarks : list (option Landmark)) (i : nat)
  : option Landmark :=
  match nth_error landmarks i with
  | Some (Some lm) => if gt (visibility lm) 0.5 then Some lm else None
  | _ => None
  end.

(** [[a, b, c].filter(Boolean).length]. *)
Definition countVisible (l : list (option Landmark)) : nat :=
  List.length (filter truthy l).

(** [if (arShoeModel) { arShoeModel.visible = false; }]. *)
Definition hideShoe (s : ARState) : ARState :=
  match arShoeModel s with
  | Some model => set_arShoeModel (Some (set_visible false model)) s
  | None => s
  end.

Open Scope string_scope.

(** The body of [onPoseResults] once the six foot landmarks are read. *)
Definition onFootLandmarks
    (leftAnkle rightAnkle leftHeel rightHeel leftFootIndex rightFootIndex
       : option Landmark)
    (s : ARState) : ARState :=
  (* Count visible foot landmarks *)
  let leftFootLandmarks := countVisible [leftAnkle; leftHeel; leftFootIndex] in
  let rightFootLandmarks :=
    countVisible [rightAnkle; rightHeel; rightFootIndex] in
  (* good foot detection: at least 2 landmarks per foot *)
  let hasGoodLeftFoot := (2 <=? leftFootLandmarks)%nat in
  let hasGoodRightFoot := (2 <=? rightFootLandmarks)%nat in
  if hasGoodLeftFoot || hasGoodRightFoot then
    let hasCompleteRightFoot := truthy rightAnkle && truthy rightFootIndex in
    let hasCompleteLeftFoot := truthy leftAnkle && truthy leftFootIndex in
    let s :=
      if hasCompleteRightFoot || hasCompleteLeftFoot then
        let s := updateARStatus "Shoe positioned! Try moving your foot 👟✨"
                   "success" s in
        let s := drawFootIndicators leftAnkle rightAnkle leftFootIndex
                   rightFootIndex s in
        positionARShoe leftAnkle rightAnkle leftFootIndex rightFootIndex s
      else
        let s := updateARStatus
                   "Feet detected - show ankle and toes clearly 👣"
                   "detecting" s in
        drawFootIndicators leftAnkle rightAnkle leftFootIndex
          rightFootIndex s in
    (* Always render AR scene when feet detected *)
    render s
  else
    let s := updateARStatus "Point camera at your feet - move closer 👣"
               "detecting" s in
    (* Clear the 3D scene when no feet detected *)
    let s := hideShoe s in
    drawPoseDetectionIndicator s.

(** The [else] branch of [onPoseResults]: no usable pose. *)
Definition onNoPose (s : ARState) : ARState :=
  let s := updateARStatus "Looking for pose..." "detecting" s in
  (* Hide shoe when no pose detected *)
  let s := hideShoe s in
  drawNoPoseIndicator s.

Definition onPoseResults (results : PoseResults) (s : ARState) : ARState :=
  if negb (isARMode s) || negb (truthy (arOverlayContext s))
     || negb (truthy (arOverlayCanvas s))
  then s
  else
    let s := resizeARCanvases s in
    let s := clearRect s in
    match poseLandmarks results with
    | Some landmarks =>
        if (33 <=? List.length landmarks)%nat then
          onFootLandmarks
            (visibleLandmark landmarks 27) (visibleLandmark landmarks 28)
            (visibleLandmark landmarks 29) (visibleLandmark landmarks 30)
            (visibleLandmark landmarks 31) (visibleLandmark landmarks 32) s
        else onNoPose s
    | None => onNoPose s
    end.

Close Scope string_scope.

(** A run of pose callbacks, in arrival order. *)
Definition onFrames (frames : list PoseResults) (s : ARState) : ARState :=
  fold_left (fun st results => onPoseResults results st) frames s.

(** ** Sample inputs

    A page with every element present, a session as [enterARMode] leaves
    it (the cloned shoe is visible, at scale 0.1), and pose frames of 33
    landmarks. *)

Open Scope string_scope.

Definition arPage : Document :=
  {| ar_status := Some {| textContent := "Looking for feet...";
                          className := "ar-status detecting" |};
     ar_container := Some false;
     scene_container := Some "none";
     customization_panel := Some true;
     ar_mode_btn := Some true;
     normal_mode_btn := Some false;
     export_btn := Some true;
     ar_capture_btn := Some false |}.

Close Scope string_scope.

Definition clonedShoe : Object3D :=
  {| position := mkVector3 0 0 0; rotation := mkVector3 0 0 0;
     scale := mkVector3 0.1 0.1 0.1; visible := true |}.

Definition activeSession : ARState :=
  {| document := arPage;
     streams := [[live; live]];
     isARMode := true;
     arVideo := Some {| videoWidth := 1280; videoHeight := 720;
                        srcObject := Some 0%nat |};
     arOverlayCanvas := Some {| width := 300; height := 150 |};
     arOverlayContext := Some {| painted := [] |};
     ar3DCanvas := Some {| gl_width := 300; gl_height := 150;
                           gl_frame := None |};
     arCamera := Some {| aspect := 2 |};
     arRenderer := Some {| size := (300, 150)%Z |};
     arScene := Some tt;
     arShoeModel := Some clonedShoe;
     videoStream := Some 0%nat |}.

(** Landmarks of the scenarios: the right foot of the end-to-end example,
    its toe at low and at borderline confidence, a right heel, a landmark
    the estimator is not confident about, and the level foot of the
    mirroring example. *)
Definition ankleR : Landmark :=
  {| x := 0.5; y := 0.6; z := 0; visibility := 0.9 |}.
Definition toeR : Landmark :=
  {| x := 0.55; y := 0.62; z := 0; visibility := 0.8 |}.
Definition toeR_dim : Landmark :=
  {| x := 0.55; y := 0.62; z := 0; visibility := 0.3 |}.
Definition toeR_border : Landmark :=
  {| x := 0.55; y := 0.62; z := 0; visibility := 0.5 |}.
Definition heelR : Landmark :=
  {| x := 0.48; y := 0.63; z := 0; visibility := 0.9 |}.
Definition unseen : Landmark :=
  {| x := 0.5; y := 0.3; z := 0; visibility := 0.1 |}.
Definition ankleLevel : Landmark :=
  {| x := 0.3; y := 0.5; z := 0; visibility := 0.9 |}.
Definition toeLevel : Landmark :=
  {| x := 0.4; y := 0.5; z := 0; visibility := 0.9 |}.

(** The end-to-end scenario of the specification: right ankle and right
    toe seen, every other landmark at low confidence. *)
Definition lockedLandmarks : list (option Landmark) :=
  repeat (Some unseen) 27 ++
    [Some unseen; Some ankleR; Some unseen; Some unseen; Some unseen;
     Some toeR].

Definition lockedFrame : PoseResults :=
  {| poseLandmarks := Some lockedLandmarks |}.

(** The next frame: the right toe drops to visibility 0.3, the right ankle
    and the right heel are seen. *)
Definition partialLandmarks : list (option Landmark) :=
  repeat (Some unseen) 27 ++
    [Some unseen; Some ankleR; Some unseen; Some heelR; Some unseen;
     Some toeR_dim].

Definition partialFrame : PoseResults :=
  {| poseLandmarks := Some partialLandmarks |}.

(** The locked frame with the right toe at visibility exactly 0.5. *)
Definition borderLandmarks : list (option Landmark) :=
  repeat (Some unseen) 27 ++
    [Some unseen; Some ankleR; Some unseen; Some unseen; Some unseen;
     Some toeR_border].

(** ** Vocabulary of the specification *)

(** The tracking states the pose callback can report, and the status line
    each one stands for in the source. *)
Inductive TrackingStatus := Searching | PoseFound | FeetPartial | FeetLocked.

Open Scope string_scope.

Definition statusElementOf (t : TrackingStatus) : StatusElement :=
  match t with
  | Searching =>
      {| textContent := "Looking for pose...";
         className := "ar-status detecting" |}
  | PoseFound =>
      {| textContent := "Point camera at your feet - move closer 👣";
         className := "ar-status detecting" |}
  | FeetPartial =>
      {| textContent := "Feet detected - show ankle and toes clearly 👣";
         className := "ar-status detecting" |}
  | FeetLocked =>
      {| textContent := "Shoe positioned! Try moving your foot 👟✨";
         className := "ar-status success" |}
  end.

(** The status line [exitARMode] resets to. *)
Definition resetStatus : StatusElement :=
  {| textContent := "Looking for feet..."; className := "ar-status " |}.

Close Scope string_scope.

Inductive Side := LeftSide | RightSide.

Definition ankleOf (side : Side) (l : list (option Landmark)) :=
  visibleLandmark l (match side with LeftSide => 27 | RightSide => 28 end).
Definition heelOf (side : Side) (l : list (option Landmark)) :=
  visibleLandmark l (match side with LeftSide => 29 | RightSide => 30 end).
Definition toeOf (side : Side) (l : list (option Landmark)) :=
  visibleLandmark l (match side with LeftSide => 31 | RightSide => 32 end).

Definition present (o : option Landmark) : nat :=
  match o with Some _ => 1 | None => 0 end.

(** How many of a side's ankle, heel and toe passed validation. *)
Definition visibleCount (side : Side) (l : list (option Landmark)) : nat :=
  present (ankleOf side l) + present (heelOf side l) + present (toeOf side l).

Definition good (side : Side) (l : list (option Landmark)) : Prop :=
  (2 <= visibleCount side l)%nat.

Definition complete (side : Side) (l : list (option Landmark)) : Prop :=
  ankleOf side l <> None /\ toeOf side l <> None.

(** The session is active and has its overlay: the pose callback runs. *)
Definition active (s : ARState) : Prop :=
  isARMode s = true /\ arOverlayContext s <> None /\
  arOverlayCanvas s <> None.

(** The status a pose result derives, clause by clause. *)
Inductive DerivedStatus (results : PoseResults) : TrackingStatus -> Prop :=
| derive_absent :
    poseLandmarks results = None -> DerivedStatus results Searching
| derive_short l :
    poseLandmarks results = Some l -> (List.length l < 33)%nat ->
    DerivedStatus results Searching
| derive_pose l :
    poseLandmarks results = Some l -> (33 <= List.length l)%nat ->
    ~ good LeftSide l -> ~ good RightSide l ->
    DerivedStatus results PoseFound
| derive_partial l :
    poseLandmarks results = Some l -> (33 <= List.length l)%nat ->
    good LeftSide l \/ good RightSide l ->
    ~ complete LeftSide l -> ~ complete RightSide l ->
    DerivedStatus results FeetPartial
| derive_locked l :
    poseLandmarks results = Some l -> (33 <= List.length l)%nat ->
    complete LeftSide l \/ complete RightSide l ->
    DerivedStatus results FeetLocked.

(** Position, rotation and scale of an object. *)
Definition transformOf (m : Object3D) : Vector3 * Vector3 * Vector3 :=
  (position m, rotation m, scale m).

(** The placement position as the specification words it: the midpoint of
    ankle and toe mapped by [(c - 0.5) * K] with Y inverted, [K = 6], moved
    by the fraction [F = 0.2] of the ankle-to-toe vector taken in the same
    mapped space (so scaled by [K] and inverted in Y too), at depth -2. *)
Definition specPosition (ankle toe : Landmark) : Vector3 :=
  let K := 6 in
  let F := 0.2 in
  let centerX := (x ankle + x toe) / 2 in
  let centerY := (y ankle + y toe) / 2 in
  let sx := (centerX - 0.5) * K in
  let sy := - (centerY - 0.5) * K in
  let mappedDx := (x toe - x ankle) * K in
  let mappedDy := - (y toe - y ankle) * K in
  mkVector3 (sx + F * mappedDx) (sy + F * mappedDy) (-2).

(** The position claim as worded: placing a chosen foot puts the shoe at
    [specPosition]. *)
Definition position_as_specified
    (s : ARState) (la ra lf rf : option Landmark) : Prop :=
  forall ankle toe isLeft,
    selectFoot la ra lf rf = (Some ankle, Some toe, isLeft) ->
    exists m, arShoeModel (positionARShoe la ra lf rf s) = Some m /\
              position m = specPosition ankle toe.

(** [clamp(v, lo, hi)] and the Euclidean distance, as the specification
    uses them for the scale. *)
Definition clamp (v lo hi : R) : R :=
  if Rlt_dec v lo then lo else if Rlt_dec hi v then hi else v.

Definition euclideanDistance (a b : Landmark) : R :=
  sqrt (Rsqr (x a - x b) + Rsqr (y a - y b)).

(** The exit claim as worded, for the tracked object: after [exitARMode]
    the shoe model is hidden. *)
Definition exit_hides_object (s : ARState) : Prop :=
  forall m, arShoeModel (exitARMode s) = Some m -> visible m = false.

(** Two landmark arrays that differ at most in the left foot's slots
    (27 ankle, 29 heel, 31 foot index). *)
Definition agree_off_left (l l' : list (option Landmark)) : Prop :=
  forall i : nat, i <> 27%nat -> i <> 29%nat -> i <> 31%nat ->
                  nth_error l i = nth_error l' i.

(** The locked frame with a left foot added at ankle and foot index. *)
Definition bothFeetLandmarks : list (option Landmark) :=
  repeat (Some unseen) 27 ++
    [Some ankleLevel; Some ankleR; Some unseen; Some unseen; Some toeLevel;
     Some toeR].

(** ** Entering AR mode *)

Definition set_arScene (sc : option unit) (s : ARState) : ARState :=
  {| document := document s; streams := streams s; isARMode := isARMode s;
     arVideo := arVideo s; arOverlayCanvas := arOverlayCanvas s;
     arOverlayContext := arOverlayContext s; ar3DCanvas := ar3DCanvas s;
     arCamera := arCamera s; arRenderer := arRenderer s; arScene := sc;
     arShoeModel := arShoeModel s; videoStream := videoStream s |}.

Definition set_arVideo (v : option Video) (s : ARState) : ARState :=
  {| document := document s; streams := streams s; isARMode := isARMode s;
     arVideo := v; arOverlayCanvas := arOverlayCanvas s;
     arOverlayContext := arOverlayContext s; ar3DCanvas := ar3DCanvas s;
     arCamera := arCamera s; arRenderer := arRenderer s; arScene := arScene s;
     arShoeModel := arShoeModel s; videoStream := videoStream s |}.

(** How a function ends: it returns, or it throws an error of some name;
    either way with the state as it then is. *)
Inductive Completion :=
| Returned (s : ARState)
| Threw (errorName : string) (s : ARState).

Open Scope string_scope.

(** [setupARScene]: reading [ar3DCanvas.width] throws a TypeError when the
    page has no 3D canvas, after [arScene] has been assigned.  The clone of
    the loaded model keeps its position, rotation and visibility and gets
    the AR scale. *)
Definition setupARScene (loadedModel : option Object3D) (s : ARState)
  : Completion :=
  let s := set_arScene (Some tt) s in
  match ar3DCanvas s with
  | None => Threw "TypeError" s
  | Some canvas =>
      let s := set_arCamera
                 (Some {| aspect := IZR (gl_width canvas)
                                    / IZR (gl_height canvas) |}) s in
      let s := set_arRenderer
                 (Some {| size := (gl_width canvas, gl_height canvas) |}) s in
      match loadedModel with
      | Some model =>
          Returned
            (set_arShoeModel
               (Some {| position := position model;
                        rotation := rotation model;
                        scale := mkVector3 0.1 0.1 0.1;
                        visible := visible model |}) s)
      | None => Returned s
      end
  end.

(** The two classes [showARInterface] touches on a mobile device and
    [hideARInterface] never does. *)
Record MobileClasses := {
  panel_ar_mode : bool;          (* customization-panel has 'ar-mode' *)
  video_front_camera : bool }.   (* ar-video has 'front-camera' *)

(** [showARInterface], up to the resize it schedules 100 ms later (which
    is a call of [resizeARCanvases]). *)
Definition showARInterface (isMobile : bool) (s : ARState)
    (m : MobileClasses) : ARState * MobileClasses :=
  let d := document s in
  (set_document
     {| ar_status := ar_status d;
        ar_container := option_map (fun _ => false) (ar_container d);
        scene_container := option_map (fun _ => "none") (scene_container d);
        customization_panel :=
          option_map (fun _ => true) (customization_panel d);
        ar_mode_btn := option_map (fun _ => true) (ar_mode_btn d);
        normal_mode_btn := option_map (fun _ => false) (normal_mode_btn d);
        export_btn := option_map (fun _ => true) (export_btn d);
        ar_capture_btn := option_map (fun _ => false) (ar_capture_btn d) |}
     s,
   {| panel_ar_mode :=
        if isMobile && truthy (customization_panel d) then true
        else panel_ar_mode m;
      video_front_camera :=
        if isMobile && truthy (arVideo s) then false
        else video_front_camera m |}).

(** What [navigator.mediaDevices.getUserMedia] answers: a stream with its
    tracks and the size the video reports once its metadata is loaded, or a
    rejection with the name of the error. *)
Inductive CameraAnswer :=
| Granted (tracks : MediaStream) (videoW videoH : Z)
| Rejected (errorName : string).

(** The [catch] block of [enterARMode]. *)
Definition enterARMode_catch (errorName : string) (s : ARState) : ARState :=
  let s := updateARStatus
             "Camera access denied. Please allow camera permission."
             "error" s in
  if String.eqb errorName "NotAllowedError" then
    updateARStatus "Camera permission denied. Please enable camera access."
      "error" s
  else if String.eqb errorName "NotFoundError" then
    updateARStatus "No camera found. Please connect a camera." "error" s
  else updateARStatus "Camera error. Please try again." "error" s.

(** [enterARMode], given the camera's answer, the model loaded so far and
    whether the device is mobile.  [startPoseDetection] only registers the
    frame source whose results arrive later through [onPoseResults]. *)
Definition enterARMode (answer : CameraAnswer)
    (loadedModel : option Object3D) (isMobile : bool)
    (s : ARState) (m : MobileClasses) : ARState * MobileClasses :=
  let s := updateARStatus "Requesting camera permission..." "detecting" s in
  match answer with
  | Rejected errorName => (enterARMode_catch errorName s, m)
  | Granted tracks videoW videoH =>
      (* videoStream = await getUserMedia(constraints) *)
      let i := List.length (streams s) in
      let s := set_videoStream (Some i)
                 (set_streams (streams s ++ [tracks]) s) in
      (* arVideo.srcObject = videoStream *)
      match arVideo s with
      | None => (enterARMode_catch "TypeError" s, m)
      | Some _ =>
          let s := set_arVideo
                     (Some {| videoWidth := videoW; videoHeight := videoH;
                              srcObject := Some i |}) s in
          match setupARScene loadedModel s with
          | Threw errorName s => (enterARMode_catch errorName s, m)
          | Returned s =>
              let (s, m) := showARInterface isMobile s m in
              let s := updateARStatus "Looking for feet..." "detecting" s in
              (set_isARMode true s, m)
          end
      end
  end.

Close Scope string_scope.

(** ** Mesh names *)

Open Scope N_scope.

(** A JavaScript string, by its UTF-16 code units. *)
Definition JSString := list N.

(** The code units of an ASCII string. *)
Definition fromAscii (s : string) : JSString :=
  map N_of_ascii (list_ascii_of_string s).

(** The regular expression class [\w]: digits, letters and underscore. *)
Definition isWordChar (c : N) : bool :=
  (48 <=? c) && (c <=? 57) || (65 <=? c) && (c <=? 90) || (c =? 95)
  || (97 <=? c) && (c <=? 122).

(** The class [\s], which is also what [trim()] strips: the white space
    and line terminator code units of ECMAScript. *)
Definition isWhiteSpace (c : N) : bool :=
  (9 <=? c) && (c <=? 13) || (c =? 32) || (c =? 160) || (c =? 5760)
  || (8192 <=? c) && (c <=? 8202) || (c =? 8232) || (c =? 8233)
  || (c =? 8239) || (c =? 8287) || (c =? 12288) || (c =? 65279).

Definition isLowerCase (c : N) : bool := (97 <=? c) && (c <=? 122).

(** [l.toUpperCase()] for the one [\w] code unit the callback receives. *)
Definition toUpperCase (c : N) : N := if isLowerCase c then c - 32 else c.

(** The class [[_-]]. *)
Definition isSeparator (c : N) : bool := (c =? 95) || (c =? 45).

(** [.replace(/[_-]/g, ' ')]. *)
Definition replaceSeparators (s : JSString) : JSString :=
  map (fun c => if isSeparator c then 32 else c) s.

(** [.replace(/\b\w/g, l => l.toUpperCase())]: a word character is matched
    when the code unit before it, if any, is not one. *)
Fixpoint capitalizeFrom (prevWord : bool) (s : JSString) : JSString :=
  match s with
  | [] => []
  | c :: rest =>
      (if isWordChar c && negb prevWord then toUpperCase c else c)
        :: capitalizeFrom (isWordChar c) rest
  end.

Definition capitalizeWords (s : JSString) : JSString :=
  capitalizeFrom false s.

(** [.replace(/\s+/g, ' ')]: every maximal run of white space becomes one
    space. *)
Fixpoint collapseFrom (inRun : bool) (s : JSString) : JSString :=
  match s with
  | [] => []
  | c :: rest =>
      if isWhiteSpace c
      then (if inRun then collapseFrom true rest
            else 32 :: collapseFrom true rest)
      else c :: collapseFrom false rest
  end.

Definition collapseWhiteSpace (s : JSString) : JSString :=
  collapseFrom false s.

Fixpoint trimStart (s : JSString) : JSString :=
  match s with
  | [] => []
  | c :: rest => if isWhiteSpace c then trimStart rest else s
  end.

Definition trimEnd (s : JSString) : JSString := rev (trimStart (rev s)).

(** [.trim()]. *)
Definition trim (s : JSString) : JSString := trimEnd (trimStart s).

(** The chain of [cleanMeshName] before [' Color'] is appended. *)
Definition cleanCore (name : JSString) : JSString :=
  trim (collapseWhiteSpace (capitalizeWords (replaceSeparators name))).

Definition cleanMeshName (name : JSString) : JSString :=
  cleanCore name ++ fromAscii " Color".

(** *** Shapes of strings used to state what [cleanMeshName] returns *)

(** Every lower-case letter follows a word character. *)
Fixpoint capitalized (prevWord : bool) (s : JSString) : Prop :=
  match s with
  | [] => True
  | c :: rest =>
      (isLowerCase c = true -> prevWord = true) /\
      capitalized (isWordChar c) rest
  end.

(** Every white space is a plain space that follows no white space. *)
Fixpoint singleSpaced (prevSpace : bool) (s : JSString) : Prop :=
  match s with
  | [] => True
  | c :: rest =>
      (isWhiteSpace c = true -> c = 32 /\ prevSpace = false) /\
      singleSpaced (isWhiteSpace c) rest
  end.

Definition noLeadingSpace (s : JSString) : Prop :=
  match s with [] => True | c :: _ => isWhiteSpace c = false end.

Definition noTrailingSpace (s : JSString) : Prop := noLeadingSpace (rev s).

Definition notSeparator (c : N) : Prop := isSeparator c = false.

Close Scope N_scope.

(** ** Vocabulary for the further properties *)

(** A landmark inside the image. *)
Definition normalized (l : Landmark) : Prop :=
  0 <= x l <= 1 /\ 0 <= y l <= 1.

(** What pose callbacks leave alone.  Kept equal: the session flag
    [isARMode], the media streams and the stream reference, the video
    element's size and source, and the seven page elements the AR code
    toggles besides the status line (the 'hidden' class of the AR container
    and of the four buttons, the scene container's display style, the
    panel's 'ar-active' class).  Kept present or absent, whatever their
    contents become: the status element, the scene object, the shoe model,
    the camera, the renderer, the two canvases and the overlay context.
    Nothing is said of the contents a frame does write: the shoe's transform
    and visibility inside the scene, the canvas sizes, the rendered image,
    the overlay drawing, the camera aspect, the status text. *)
Definition sameSession (s s' : ARState) : Prop :=
  isARMode s' = isARMode s /\
  streams s' = streams s /\
  videoStream s' = videoStream s /\
  arVideo s' = arVideo s /\
  set_ar_status None (document s') = set_ar_status None (document s) /\
  truthy (ar_status (document s')) = truthy (ar_status (document s)) /\
  truthy (arScene s') = truthy (arScene s) /\
  truthy (arShoeModel s') = truthy (arShoeModel s) /\
  truthy (arCamera s') = truthy (arCamera s) /\
  truthy (arRenderer s') = truthy (arRenderer s) /\
  truthy (arOverlayCanvas s') = truthy (arOverlayCanvas s) /\
  truthy (ar3DCanvas s') = truthy (ar3DCanvas s) /\
  truthy (arOverlayContext s') = truthy (arOverlayContext s).

(** How many of the four landmarks [drawFootIndicators] receives are
    present. *)
Definition presentCount (l : list (option Landmark)) : nat :=
  List.length (filter truthy l).

Definition isStrokeLine (op : DrawOp) : bool :=
  match op with StrokeLine _ _ _ _ _ _ _ => true | _ => false end.

(** A session entered for the second time: the first session's stream is
    still in the page's memory, stopped. *)
Definition secondSession : ARState :=
  set_videoStream (Some 1%nat)
    (set_streams [[ended; ended]; [live; live]] activeSession).

(** ** The main view: window, renderer, camera and the mobile panel *)

(** [a <= b] on numbers. *)
Definition lte (a b : R) : bool := if Rle_dec a b then true else false.

(** The window size, the main renderer and camera ([None] until [init] has
    created them), and the classes and text of the mobile panel.  The panel,
    the scene container and the toggle are taken to exist: the code reads
    them unguarded. *)
Record MainView := {
  innerWidth : R;
  innerHeight : R;
  rendererSize : option (R * R);
  cameraAspect : option R;
  panel_expanded : bool;           (* customization-panel has 'expanded' *)
  scene_panel_expanded : bool;     (* scene-container has 'panel-expanded' *)
  panel_toggle_text : string }.

Definition set_view (size : option (R * R)) (aspect' : option R)
    (v : MainView) : MainView :=
  {| innerWidth := innerWidth v; innerHeight := innerHeight v;
     rendererSize := size; cameraAspect := aspect';
     panel_expanded := panel_expanded v;
     scene_panel_expanded := scene_panel_expanded v;
     panel_toggle_text := panel_toggle_text v |}.

Definition set_panel (expanded : bool) (text : string) (v : MainView)
  : MainView :=
  {| innerWidth := innerWidth v; innerHeight := innerHeight v;
     rendererSize := rendererSize v; cameraAspect := cameraAspect v;
     panel_expanded := expanded; scene_panel_expanded := expanded;
     panel_toggle_text := text |}.

(** [onWindowResize]; [None] when it throws because the camera or the
    renderer is still undefined. *)
Definition onWindowResize (v : MainView) : option MainView :=
  let isExpanded := scene_panel_expanded v in
  match cameraAspect v, rendererSize v with
  | Some _, Some _ =>
      if lte (innerWidth v) 768 && isExpanded then
        (* Mobile with expanded panel - use half height *)
        Some (set_view (Some (innerWidth v, innerHeight v * 0.5))
                (Some (innerWidth v / (innerHeight v * 0.5))) v)
      else
        (* Desktop or mobile collapsed - use full screen *)
        Some (set_view (Some (innerWidth v, innerHeight v))
                (Some (innerWidth v / innerHeight v)) v)
  | _, _ => None
  end.

Inductive ResizeMode := half | full.

(** [resizeRenderer(mode)] of [setupMobilePanelToggle]. *)
Definition resizeRenderer (mode : ResizeMode) (v : MainView) : MainView :=
  match rendererSize v with
  | None => v
  | Some _ =>
      let width := innerWidth v in
      let height := match mode with
                    | half => innerHeight v * 0.5
                    | full => innerHeight v
                    end in
      set_view (Some (width, height))
        (option_map (fun _ => width / height) (cameraAspect v)) v
  end.

Open Scope string_scope.

(** [togglePanel()] of [setupMobilePanelToggle]: the new view and the
    resize it schedules 50 ms later. *)
Definition togglePanel (v : MainView) : MainView * ResizeMode :=
  let isExpanded := panel_expanded v in
  if isExpanded then (set_panel false "▲" v, full)
  else (set_panel true "▼" v, half).

Definition initializeMobilePanel (v : MainView) : MainView :=
  if lte (innerWidth v) 768 then
    let v := set_panel false "▲" v in
    match rendererSize v with
    | Some _ =>
        set_view (Some (innerWidth v, innerHeight v))
          (option_map (fun _ => innerWidth v / innerHeight v)
             (cameraAspect v)) v
    | None => v
    end
  else v.

Close Scope string_scope.

(** The window's resize listeners that act on the main view, in the order
    they were registered: [initializeMobilePanel] (with
    [setupMobilePanelToggle], which only rebinds handlers) at script load,
    [onWindowResize] from [init]. *)
Definition windowResized (v : MainView) : option MainView :=
  onWindowResize (initializeMobilePanel v).

(** A tap on the panel header followed by the resize it scheduled. *)
Definition tapPanel (v : MainView) : MainView :=
  let (v', mode) := togglePanel v in resizeRenderer mode v'.

(** The panel, the scene container, the toggle and the renderer agree on
    whether the panel is expanded. *)
Definition panelConsistent (v : MainView) : Prop :=
  scene_panel_expanded v = panel_expanded v /\
  panel_toggle_text v
  = (if panel_expanded v then "▼" else "▲")%string /\
  rendererSize v
  = Some (innerWidth v,
          if panel_expanded v then innerHeight v * 0.5 else innerHeight v) /\
  cameraAspect v
  = Some (innerWidth v
          / (if panel_expanded v then innerHeight v * 0.5
             else innerHeight v)).

(** ** Export: the pair of shoes and the camera *)

(** The part of the main scene the export touches: the loaded model, the
    second shoes in the scene (each with the number it was created under),
    [window.tempSecondShoe], the camera position and the orbit controls'
    target and [enabled] flag, and the camera position and target saved by
    [exportToPNG]. *)
Record Studio := {
  loadedModel : option Object3D;
  sceneShoes : list (nat * Object3D);
  createdShoes : nat;
  tempSecondShoe : option nat;
  cameraPosition : Vector3;
  controlsTarget : Vector3;
  controlsEnabled : bool;
  originalCameraPosition : option Vector3;
  originalCameraTarget : option Vector3 }.

(** The two lines of [exportToPNG] that store the camera. *)
Definition storeCamera (st : Studio) : Studio :=
  {| loadedModel := loadedModel st; sceneShoes := sceneShoes st;
     createdShoes := createdShoes st; tempSecondShoe := tempSecondShoe st;
     cameraPosition := cameraPosition st;
     controlsTarget := controlsTarget st;
     controlsEnabled := controlsEnabled st;
     originalCameraPosition := Some (cameraPosition st);
     originalCameraTarget := Some (controlsTarget st) |}.

Definition setExportCameraPosition (st : Studio) : Studio :=
  let exportScale := 0.25 in
  match loadedModel st with
  | Some model =>
      let secondShoe :=
        {| position := mkVector3 1.0 0 0;
           rotation := set_vy 0.15 (rotation model);
           scale := mkVector3 exportScale exportScale exportScale;
           visible := visible model |} in
      let model' :=
        {| position := mkVector3 (-1.0) 0 0;
           rotation := set_vy (-0.15) (rotation model);
           scale := mkVector3 exportScale exportScale exportScale;
           visible := visible model |} in
      {| loadedModel := Some model';
         sceneShoes := sceneShoes st ++ [(createdShoes st, secondShoe)];
         createdShoes := S (createdShoes st);
         tempSecondShoe := Some (createdShoes st);
         cameraPosition := mkVector3 6 7 8;
         controlsTarget := controlsTarget st;
         controlsEnabled := false;
         originalCameraPosition := originalCameraPosition st;
         originalCameraTarget := originalCameraTarget st |}
  | None =>
      {| loadedModel := None; sceneShoes := sceneShoes st;
         createdShoes := createdShoes st;
         tempSecondShoe := tempSecondShoe st;
         cameraPosition := mkVector3 6 7 8;
         controlsTarget := controlsTarget st;
         controlsEnabled := false;
         originalCameraPosition := originalCameraPosition st;
         originalCameraTarget := originalCameraTarget st |}
  end.

(** [restoreCameraPosition]; [controlsUpdate] stands for the orbit
    controls' [update()], which acts on the camera position and the
    target. *)
Definition restoreCameraPosition
    (controlsUpdate : Vector3 * Vector3 -> Vector3 * Vector3) (st : Studio)
  : Studio :=
  (* Clean up temporary second shoe *)
  let shoes := match tempSecondShoe st with
               | Some i =>
                   filter (fun p => negb (Nat.eqb (fst p) i)) (sceneShoes st)
               | None => sceneShoes st
               end in
  (* Restore original model position and scale *)
  let model := option_map
                 (fun model =>
                    {| position := mkVector3 0 0 0;
                       rotation := set_vy 0 (rotation model);
                       scale := mkVector3 0.36 0.36 0.36;
                       visible := visible model |}) (loadedModel st) in
  (* Restore camera position *)
  let camera :=
    match originalCameraPosition st, originalCameraTarget st with
    | Some p, Some t => controlsUpdate (p, t)
    | _, _ => (cameraPosition st, controlsTarget st)
    end in
  {| loadedModel := model; sceneShoes := shoes;
     createdShoes := createdShoes st; tempSecondShoe := None;
     cameraPosition := fst camera; controlsTarget := snd camera;
     controlsEnabled := true;
     originalCameraPosition := originalCameraPosition st;
     originalCameraTarget := originalCameraTarget st |}.

(** * Properties *)

(** ** Comparison and truthiness *)

Lemma gt_true (a b : R) : b < a -> gt a b = true.
Proof.
  intros H. unfold gt.
  destruct (Rlt_dec b a); [reflexivity | contradiction].
Qed.

Lemma gt_false (a b : R) : a <= b -> gt a b = false.
Proof. intros H. unfold gt. destruct (Rlt_dec b a); [lra | reflexivity]. Qed.

Lemma gt_iff (a b : R) : gt a b = true <-> a > b.
Proof.
  unfold gt. destruct (Rlt_dec b a) as [H | H]; split; intros H'.
  - exact H.
  - reflexivity.
  - discriminate H'.
  - contradiction.
Qed.

Lemma truthy_Some_iff {A : Type} (o : option A) :
  truthy o = true <-> o <> None.
Proof. destruct o; simpl; split; congruence. Qed.

(** ** The landmark validator *)

Lemma visibleLandmark_cases (landmarks : list (option Landmark)) (i : nat) :
  visibleLandmark landmarks i = None \/
  exists lm, nth_error landmarks i = Some (Some lm) /\
             visibility lm > 0.5 /\ visibleLandmark landmarks i = Some lm.
Proof.
  unfold visibleLandmark.
  destruct (nth_error landmarks i) as [[lm |] |]; auto.
  destruct (gt (visibility lm) 0.5) eqn:E; auto.
  right. exists lm. apply gt_iff in E. auto.
Qed.

(** C2: on a landmark array of at least 33 entries, the validator returns
    the landmark at any of the indices 27..32 unchanged exactly when its
    visibility is strictly above 0.5, and returns null when the visibility is
    at most 0.5, in particular when it is exactly 0.5. *)
Theorem visibleLandmark_threshold :
  forall (landmarks : list (option Landmark)) (i : nat) (lm : Landmark),
    (33 <= List.length landmarks)%nat ->
    (27 <= i <= 32)%nat ->
    nth_error landmarks i = Some (Some lm) ->
    (visibleLandmark landmarks i = Some lm <-> visibility lm > 0.5) /\
    (visibility lm <= 0.5 -> visibleLandmark landmarks i = None) /\
    (visibility lm = 0.5 -> visibleLandmark landmarks i = None).
Proof.
  intros landmarks i lm _ _ Hnth.
  unfold visibleLandmark. rewrite Hnth.
  destruct (gt (visibility lm) 0.5) eqn:E.
  - apply gt_iff in E. repeat split; intros; try lra; reflexivity.
  - assert (Hle : ~ visibility lm > 0.5).
    { intros H. apply gt_iff in H. congruence. }
    repeat split; intros; try reflexivity; try discriminate; contradiction.
Qed.

Lemma visibleLandmark_threshold_witness :
  visibleLandmark borderLandmarks 28 = Some ankleR /\
  visibleLandmark borderLandmarks 32 = None.
Proof.
  split.
  - apply (visibleLandmark_threshold borderLandmarks 28 ankleR).
    + simpl. lia.
    + lia.
    + reflexivity.
    + simpl. lra.
  - apply (visibleLandmark_threshold borderLandmarks 32 toeR_border).
    + simpl. lia.
    + lia.
    + reflexivity.
    + reflexivity.
Defined.

(** ** What each step leaves alone *)

Ltac split_matches :=
  repeat match goal with
         | |- context [match ?e with _ => _ end] => destruct e eqn:?
         end.

Ltac frame_step f :=
  intros;
  match goal with st : ARState |- _ => destruct st end;
  unfold f; simpl; split_matches; reflexivity.

Lemma document_paint ops s : document (paint ops s) = document s.
Proof. frame_step paint. Qed.

Lemma model_paint ops s : arShoeModel (paint ops s) = arShoeModel s.
Proof. frame_step paint. Qed.

Lemma camera_paint ops s : arCamera (paint ops s) = arCamera s.
Proof. frame_step paint. Qed.

Lemma document_drawIfPresent lm label color s :
  document (drawIfPresent lm label color s) = document s.
Proof. destruct lm; simpl; [apply document_paint | reflexivity]. Qed.

Lemma model_drawIfPresent lm label color s :
  arShoeModel (drawIfPresent lm label color s) = arShoeModel s.
Proof. destruct lm; simpl; [apply model_paint | reflexivity]. Qed.

Lemma camera_drawIfPresent lm label color s :
  arCamera (drawIfPresent lm label color s) = arCamera s.
Proof. destruct lm; simpl; [apply camera_paint | reflexivity]. Qed.

Lemma document_drawFootIndicators la ra lf rf s :
  document (drawFootIndicators la ra lf rf s) = document s.
Proof.
  unfold drawFootIndicators, drawFootConnection.
  destruct ra, rf, la, lf; rewrite ?document_paint;
    rewrite !document_drawIfPresent; reflexivity.
Qed.

Lemma model_drawFootIndicators la ra lf rf s :
  arShoeModel (drawFootIndicators la ra lf rf s) = arShoeModel s.
Proof.
  unfold drawFootIndicators, drawFootConnection.
  destruct ra, rf, la, lf; rewrite ?model_paint;
    rewrite !model_drawIfPresent; reflexivity.
Qed.

Lemma camera_drawFootIndicators la ra lf rf s :
  arCamera (drawFootIndicators la ra lf rf s) = arCamera s.
Proof.
  unfold drawFootIndicators, drawFootConnection.
  destruct ra, rf, la, lf; rewrite ?camera_paint;
    rewrite !camera_drawIfPresent; reflexivity.
Qed.

Lemma document_updateARStatus message type s e :
  ar_status (document s) = Some e ->
  ar_status (document (updateARStatus message type s)) =
  Some {| textContent := message;
          className := String.append "ar-status " type |}.
Proof. intros H. unfold updateARStatus. rewrite H. reflexivity. Qed.

Lemma model_updateARStatus message type s :
  arShoeModel (updateARStatus message type s) = arShoeModel s.
Proof. frame_step updateARStatus. Qed.

Lemma camera_updateARStatus message type s :
  arCamera (updateARStatus message type s) = arCamera s.
Proof. frame_step updateARStatus. Qed.

Lemma document_resizeARCanvases s :
  document (resizeARCanvases s) = document s.
Proof. frame_step resizeARCanvases. Qed.

Lemma model_resizeARCanvases s :
  arShoeModel (resizeARCanvases s) = arShoeModel s.
Proof. frame_step resizeARCanvases. Qed.

Lemma camera_resizeARCanvases s :
  truthy (arCamera (resizeARCanvases s)) = truthy (arCamera s).
Proof.
  destruct s as [d st m v oc ox gc cam rd sc sh vs].
  unfold resizeARCanvases; simpl.
  destruct v, oc, gc; try reflexivity.
  destruct (negb _ && negb _); try reflexivity.
  destruct cam, rd; reflexivity.
Qed.

Lemma document_clearRect s : document (clearRect s) = document s.
Proof. reflexivity. Qed.

Lemma model_clearRect s : arShoeModel (clearRect s) = arShoeModel s.
Proof. reflexivity. Qed.

Lemma camera_clearRect s : arCamera (clearRect s) = arCamera s.
Proof. reflexivity. Qed.

Lemma document_render s : document (render s) = document s.
Proof. frame_step render. Qed.

Lemma model_render s : arShoeModel (render s) = arShoeModel s.
Proof. frame_step render. Qed.

Lemma document_hideShoe s : document (hideShoe s) = document s.
Proof. frame_step hideShoe. Qed.

Lemma document_positionARShoe la ra lf rf s :
  document (positionARShoe la ra lf rf s) = document s.
Proof. frame_step positionARShoe. Qed.

Lemma active_guard s :
  active s ->
  negb (isARMode s) || negb (truthy (arOverlayContext s))
    || negb (truthy (arOverlayCanvas s)) = false.
Proof.
  intros (Hm & Hc & Hv). rewrite Hm.
  destruct (arOverlayContext s), (arOverlayCanvas s); simpl; congruence.
Qed.

(** ** Status derivation *)

Lemma countVisible_present a h t :
  countVisible [a; h; t] = (present a + present h + present t)%nat.
Proof. destruct a, h, t; reflexivity. Qed.

Lemma good_iff side l :
  (2 <=? countVisible [ankleOf side l; heelOf side l; toeOf side l])%nat
  = true <-> good side l.
Proof.
  unfold good, visibleCount. rewrite countVisible_present.
  apply Nat.leb_le.
Qed.

Lemma complete_iff side l :
  truthy (ankleOf side l) && truthy (toeOf side l) = true <->
  complete side l.
Proof.
  unfold complete. rewrite andb_true_iff, !truthy_Some_iff. tauto.
Qed.

Lemma complete_good side l : complete side l -> good side l.
Proof.
  unfold complete, good, visibleCount. intros [Ha Ht].
  destruct (ankleOf side l), (toeOf side l); try congruence.
  simpl. lia.
Qed.

Lemma status_onNoPose s e :
  ar_status (document s) = Some e ->
  ar_status (document (onNoPose s)) = Some (statusElementOf Searching).
Proof.
  intros H. unfold onNoPose, drawNoPoseIndicator.
  rewrite document_paint, document_hideShoe.
  apply (document_updateARStatus _ _ s e H).
Qed.

Lemma status_onFootLandmarks la ra lh rh lf rf s e :
  ar_status (document s) = Some e ->
  ar_status (document (onFootLandmarks la ra lh rh lf rf s)) =
  Some (statusElementOf
          (if (2 <=? countVisible [la; lh; lf])%nat
              || (2 <=? countVisible [ra; rh; rf])%nat
           then if truthy ra && truthy rf || truthy la && truthy lf
                then FeetLocked else FeetPartial
           else PoseFound)).
Proof.
  intros H. unfold onFootLandmarks.
  destruct ((2 <=? countVisible [la; lh; lf])%nat
            || (2 <=? countVisible [ra; rh; rf])%nat).
  - rewrite document_render.
    destruct (truthy ra && truthy rf || truthy la && truthy lf).
    + rewrite document_positionARShoe, document_drawFootIndicators.
      apply (document_updateARStatus _ _ s e H).
    + rewrite document_drawFootIndicators.
      apply (document_updateARStatus _ _ s e H).
  - unfold drawPoseDetectionIndicator.
    rewrite document_paint, document_hideShoe.
    apply (document_updateARStatus _ _ s e H).
Qed.

Lemma onPoseResults_active results s :
  active s ->
  onPoseResults results s =
  let s' := clearRect (resizeARCanvases s) in
  match poseLandmarks results with
  | Some landmarks =>
      if (33 <=? List.length landmarks)%nat then
        onFootLandmarks
          (ankleOf LeftSide landmarks) (ankleOf RightSide landmarks)
          (heelOf LeftSide landmarks) (heelOf RightSide landmarks)
          (toeOf LeftSide landmarks) (toeOf RightSide landmarks) s'
      else onNoPose s'
  | None => onNoPose s'
  end.
Proof.
  intros Ha. unfold onPoseResults. rewrite (active_guard s Ha). reflexivity.
Qed.

Lemma good_dec side l : {good side l} + {~ good side l}.
Proof. unfold good. apply le_dec. Qed.

Lemma complete_dec side l : {complete side l} + {~ complete side l}.
Proof.
  unfold complete.
  destruct (ankleOf side l), (toeOf side l);
    solve [left; split; congruence | right; intros [? ?]; congruence].
Qed.

Lemma DerivedStatus_total results : exists st, DerivedStatus results st.
Proof.
  destruct (poseLandmarks results) as [l |] eqn:Hl.
  - destruct (le_lt_dec 33 (List.length l)) as [Hlen | Hlen].
    + destruct (complete_dec LeftSide l) as [Hcl | Hcl].
      { exists FeetLocked. apply (derive_locked _ l); auto. }
      destruct (complete_dec RightSide l) as [Hcr | Hcr].
      { exists FeetLocked. apply (derive_locked _ l); auto. }
      destruct (good_dec LeftSide l) as [Hgl | Hgl].
      { exists FeetPartial. apply (derive_partial _ l); auto. }
      destruct (good_dec RightSide l) as [Hgr | Hgr].
      { exists FeetPartial. apply (derive_partial _ l); auto. }
      exists PoseFound. apply (derive_pose _ l); auto.
    + exists Searching. apply (derive_short _ l); auto.
  - exists Searching. apply derive_absent; auto.
Qed.

Lemma bool_false_of_not (b : bool) (P : Prop) :
  (b = true <-> P) -> ~ P -> b = false.
Proof. destruct b; intuition. Qed.

Lemma status_derived results s e st :
  active s ->
  ar_status (document s) = Some e ->
  DerivedStatus results st ->
  ar_status (document (onPoseResults results s))
  = Some (statusElementOf st).
Proof.
  intros Ha He Hd.
  assert (He' : ar_status (document (clearRect (resizeARCanvases s)))
                = Some e).
  { rewrite document_clearRect, document_resizeARCanvases. exact He. }
  rewrite (onPoseResults_active results s Ha). cbv zeta.
  destruct Hd as [Hn | l Hl Hlen | l Hl Hlen Hgl Hgr
                 | l Hl Hlen Hg Hcl Hcr | l Hl Hlen Hc].
  - rewrite Hn. apply (status_onNoPose _ e He').
  - rewrite Hl.
    replace (33 <=? List.length l)%nat with false
      by (symmetry; apply Nat.leb_gt; exact Hlen).
    apply (status_onNoPose _ e He').
  - rewrite Hl.
    replace (33 <=? List.length l)%nat with true
      by (symmetry; apply Nat.leb_le; exact Hlen).
    rewrite (status_onFootLandmarks _ _ _ _ _ _ _ e He').
    rewrite (bool_false_of_not _ _ (good_iff LeftSide l) Hgl).
    rewrite (bool_false_of_not _ _ (good_iff RightSide l) Hgr).
    reflexivity.
  - rewrite Hl.
    replace (33 <=? List.length l)%nat with true
      by (symmetry; apply Nat.leb_le; exact Hlen).
    rewrite (status_onFootLandmarks _ _ _ _ _ _ _ e He').
    rewrite (bool_false_of_not _ _ (complete_iff LeftSide l) Hcl).
    rewrite (bool_false_of_not _ _ (complete_iff RightSide l) Hcr).
    assert (Hgb :
      (2 <=? countVisible [ankleOf LeftSide l; heelOf LeftSide l;
                           toeOf LeftSide l])%nat
      || (2 <=? countVisible [ankleOf RightSide l; heelOf RightSide l;
                              toeOf RightSide l])%nat = true).
    { apply orb_true_iff. rewrite !good_iff. exact Hg. }
    rewrite Hgb. reflexivity.
  - rewrite Hl.
    replace (33 <=? List.length l)%nat with true
      by (symmetry; apply Nat.leb_le; exact Hlen).
    rewrite (status_onFootLandmarks _ _ _ _ _ _ _ e He').
    assert (Hcb :
      truthy (ankleOf RightSide l) && truthy (toeOf RightSide l)
      || truthy (ankleOf LeftSide l) && truthy (toeOf LeftSide l) = true).
    { apply orb_true_iff. rewrite !complete_iff. tauto. }
    assert (Hgb :
      (2 <=? countVisible [ankleOf LeftSide l; heelOf LeftSide l;
                           toeOf LeftSide l])%nat
      || (2 <=? countVisible [ankleOf RightSide l; heelOf RightSide l;
                              toeOf RightSide l])%nat = true).
    { apply orb_true_iff. rewrite !good_iff.
      destruct Hc as [Hc | Hc]; [left | right];
        apply complete_good; exact Hc. }
    rewrite Hgb, Hcb. reflexivity.
Qed.

Lemma statusElementOf_injective st1 st2 :
  statusElementOf st1 = statusElementOf st2 -> st1 = st2.
Proof. destruct st1, st2; simpl; intros H; congruence. Qed.

Lemma all_absent_not_good side l :
  (forall i, (27 <= i <= 32)%nat -> visibleLandmark l i = None) ->
  ~ good side l.
Proof.
  intros Hnone. unfold good, visibleCount, ankleOf, heelOf, toeOf.
  destruct side; rewrite !Hnone by lia; simpl; lia.
Qed.

(** C3: the status the pose callback leaves on the status line is Searching
    when the landmark array is missing or shorter than 33, PoseFound when the
    array is long enough but neither side has two of its three foot
    landmarks (in particular when all six are absent), FeetPartial when a
    side has two of three and no side has both ankle and toe, and FeetLocked
    when a side has both ankle and toe; every pose result falls under one of
    these clauses. *)
Theorem onPoseResults_status :
  forall (results : PoseResults) (s : ARState) (e : StatusElement),
    active s ->
    ar_status (document s) = Some e ->
    (exists st, DerivedStatus results st) /\
    (forall st, DerivedStatus results st ->
       ar_status (document (onPoseResults results s)) =
       Some (statusElementOf st)) /\
    (forall l, poseLandmarks results = Some l ->
       (33 <= List.length l)%nat ->
       (forall i, (27 <= i <= 32)%nat -> visibleLandmark l i = None) ->
       ar_status (document (onPoseResults results s)) =
       Some (statusElementOf PoseFound)).
Proof.
  intros results s e Ha He.
  split; [apply DerivedStatus_total |].
  split; [intros st Hd; apply (status_derived results s e st Ha He Hd) |].
  intros l Hl Hlen Hnone.
  apply (status_derived results s e PoseFound Ha He).
  apply (derive_pose _ l Hl Hlen); apply all_absent_not_good; exact Hnone.
Qed.

(** ** Foot selection *)

Lemma model_hideShoe s :
  arShoeModel (hideShoe s) = option_map (set_visible false) (arShoeModel s).
Proof. unfold hideShoe. destruct (arShoeModel s) eqn:E; simpl; auto. Qed.

Lemma selectFoot_shape la ra lf rf :
  (exists ankle toe isLeft,
      selectFoot la ra lf rf = (Some ankle, Some toe, isLeft)) \/
  selectFoot la ra lf rf = (None, None, false).
Proof.
  unfold selectFoot. destruct ra, rf, la, lf; simpl; eauto.
Qed.

Lemma selectFoot_complete la ra lf rf ankle toe isLeft :
  selectFoot la ra lf rf = (Some ankle, Some toe, isLeft) ->
  truthy ra && truthy rf || truthy la && truthy lf = true.
Proof.
  unfold selectFoot. destruct ra, rf, la, lf; simpl; congruence.
Qed.

Lemma selectFoot_none la ra lf rf :
  selectFoot la ra lf rf = (None, None, false) ->
  truthy ra && truthy rf || truthy la && truthy lf = false.
Proof.
  unfold selectFoot. destruct ra, rf, la, lf; simpl; congruence.
Qed.

Lemma complete_countVisible (a h t : option Landmark) :
  truthy a && truthy t = true -> (2 <=? countVisible [a; h; t])%nat = true.
Proof. destruct a, h, t; simpl; congruence. Qed.

Lemma complete_is_good la ra lh rh lf rf :
  truthy ra && truthy rf || truthy la && truthy lf = true ->
  (2 <=? countVisible [la; lh; lf])%nat
  || (2 <=? countVisible [ra; rh; rf])%nat = true.
Proof.
  intros H. apply orb_true_iff in H. apply orb_true_iff.
  destruct H as [H | H]; [right | left];
    apply complete_countVisible; exact H.
Qed.

Lemma onFootLandmarks_complete la ra lh rh lf rf s :
  truthy ra && truthy rf || truthy la && truthy lf = true ->
  onFootLandmarks la ra lh rh lf rf s =
  render
    (positionARShoe la ra lf rf
       (drawFootIndicators la ra lf rf
          (updateARStatus "Shoe positioned! Try moving your foot 👟✨"
             "success" s))).
Proof.
  intros H. unfold onFootLandmarks.
  rewrite (complete_is_good la ra lh rh lf rf H), H. reflexivity.
Qed.

Lemma transform_set_visible b m :
  transformOf (set_visible b m) = transformOf m.
Proof. reflexivity. Qed.

Lemma onFootLandmarks_incomplete_transform la ra lh rh lf rf s :
  truthy ra && truthy rf || truthy la && truthy lf = false ->
  option_map transformOf (arShoeModel (onFootLandmarks la ra lh rh lf rf s))
  = option_map transformOf (arShoeModel s).
Proof.
  intros H. unfold onFootLandmarks. rewrite H.
  destruct ((2 <=? countVisible [la; lh; lf])%nat
            || (2 <=? countVisible [ra; rh; rf])%nat).
  - rewrite model_render, model_drawFootIndicators, model_updateARStatus.
    reflexivity.
  - unfold drawPoseDetectionIndicator.
    rewrite model_paint, model_hideShoe, model_updateARStatus.
    destruct (arShoeModel s); reflexivity.
Qed.

(** C4: the foot used for placement is a function of the validated ankle
    and toe landmarks alone: the right foot when its ankle and toe are both
    present (also when the left foot is complete too), otherwise the left
    foot when its ankle and toe are both present, otherwise none.  The heels
    play no part: a frame with a complete side ends in the same state
    whatever the heels are, and a frame with no complete side leaves the
    shoe's position, rotation and scale as they were. *)
Theorem selectFoot_prefers_right :
  forall (leftAnkle rightAnkle leftHeel rightHeel leftFootIndex
            rightFootIndex : option Landmark),
    (forall a t, rightAnkle = Some a -> rightFootIndex = Some t ->
       selectFoot leftAnkle rightAnkle leftFootIndex rightFootIndex
       = (Some a, Some t, false)) /\
    (forall a t, rightAnkle = None \/ rightFootIndex = None ->
       leftAnkle = Some a -> leftFootIndex = Some t ->
       selectFoot leftAnkle rightAnkle leftFootIndex rightFootIndex
       = (Some a, Some t, true)) /\
    (rightAnkle = None \/ rightFootIndex = None ->
     leftAnkle = None \/ leftFootIndex = None ->
     selectFoot leftAnkle rightAnkle leftFootIndex rightFootIndex
     = (None, None, false)) /\
    (forall ankle toe isLeft leftHeel' rightHeel' s,
       selectFoot leftAnkle rightAnkle leftFootIndex rightFootIndex
       = (Some ankle, Some toe, isLeft) ->
       onFootLandmarks leftAnkle rightAnkle leftHeel rightHeel
         leftFootIndex rightFootIndex s
       = onFootLandmarks leftAnkle rightAnkle leftHeel' rightHeel'
           leftFootIndex rightFootIndex s) /\
    (forall s,
       selectFoot leftAnkle rightAnkle leftFootIndex rightFootIndex
       = (None, None, false) ->
       option_map transformOf
         (arShoeModel
            (onFootLandmarks leftAnkle rightAnkle leftHeel rightHeel
               leftFootIndex rightFootIndex s))
       = option_map transformOf (arShoeModel s)).
Proof.
  intros la ra lh rh lf rf. repeat split.
  - intros a t -> ->. reflexivity.
  - intros a t [-> | ->] -> ->; unfold selectFoot; simpl;
      [reflexivity | destruct ra; reflexivity].
  - intros [-> | ->] [-> | ->]; unfold selectFoot;
      repeat match goal with
             | |- context [truthy ?o] => is_var o; destruct o
             end; reflexivity.
  - intros ankle toe isLeft lh' rh' s Hsel.
    apply selectFoot_complete in Hsel.
    rewrite !onFootLandmarks_complete by exact Hsel. reflexivity.
  - intros s Hsel. apply onFootLandmarks_incomplete_transform.
    apply selectFoot_none. exact Hsel.
Qed.

Lemma selectFoot_prefers_right_witness :
  selectFoot (Some ankleLevel) (Some ankleR) (Some toeLevel) (Some toeR)
  = (Some ankleR, Some toeR, false) /\
  selectFoot (Some ankleLevel) None (Some toeLevel) (Some toeR)
  = (Some ankleLevel, Some toeLevel, true) /\
  selectFoot (Some ankleLevel) None None (Some toeR) = (None, None, false) /\
  onFootLandmarks (Some ankleLevel) (Some ankleR) None None
    (Some toeLevel) (Some toeR) activeSession
  = onFootLandmarks (Some ankleLevel) (Some ankleR) (Some heelR) (Some heelR)
      (Some toeLevel) (Some toeR) activeSession /\
  option_map transformOf
    (arShoeModel
       (onFootLandmarks (Some ankleLevel) None None (Some heelR) None
          (Some toeR) activeSession))
  = option_map transformOf (arShoeModel activeSession).
Proof.
  split; [| split; [| split; [| split]]].
  - apply (selectFoot_prefers_right (Some ankleLevel) (Some ankleR) None None
             (Some toeLevel) (Some toeR)); reflexivity.
  - apply (selectFoot_prefers_right (Some ankleLevel) None None None
             (Some toeLevel) (Some toeR)); [left |  |]; reflexivity.
  - apply (selectFoot_prefers_right (Some ankleLevel) None None None None
             (Some toeR)); [left | right]; reflexivity.
  - apply (proj1 (proj2 (proj2 (proj2
             (selectFoot_prefers_right (Some ankleLevel) (Some ankleR)
                None None (Some toeLevel) (Some toeR)))))
             ankleR toeR false (Some heelR) (Some heelR) activeSession).
    reflexivity.
  - apply (selectFoot_prefers_right (Some ankleLevel) None None (Some heelR)
             None (Some toeR)).
    reflexivity.
Defined.

(** ** Placement *)

Lemma positionARShoe_selected s model cam la ra lf rf ankle toe isLeft :
  arShoeModel s = Some model ->
  arCamera s = Some cam ->
  selectFoot la ra lf rf = (Some ankle, Some toe, isLeft) ->
  positionARShoe la ra lf rf s
  = set_arShoeModel (Some (placeShoe ankle toe isLeft)) s.
Proof.
  intros Hm Hc Hsel. unfold positionARShoe. rewrite Hm, Hc, Hsel.
  reflexivity.
Qed.

Lemma position_placeShoe ankle toe isLeft :
  position (placeShoe ankle toe isLeft)
  = mkVector3
      (((x ankle + x toe) / 2 - 0.5) * 6 + 0.2 * (x toe - x ankle))
      (- ((y ankle + y toe) / 2 - 0.5) * 6 - 0.2 * (y toe - y ankle))
      (-2).
Proof. unfold placeShoe; cbv zeta; cbn [position]. f_equal; lra. Qed.

(** C5, as amended: placing a chosen foot puts the shoe at the mapped
    midpoint [((cx - 0.5) * 6, -(cy - 0.5) * 6)] of ankle and toe, moved by
    0.2 of the ankle-to-toe vector in normalized units with Y inverted (the
    offset is not scaled by 6), at the constant depth -2. *)
Theorem positionARShoe_position :
  forall (s : ARState) (model : Object3D) (cam : Camera)
         (la ra lf rf : option Landmark) (ankle toe : Landmark)
         (isLeft : bool),
    arShoeModel s = Some model ->
    arCamera s = Some cam ->
    selectFoot la ra lf rf = (Some ankle, Some toe, isLeft) ->
    exists m,
      arShoeModel (positionARShoe la ra lf rf s) = Some m /\
      let centerX := (x ankle + x toe) / 2 in
      let centerY := (y ankle + y toe) / 2 in
      position m
      = mkVector3 ((centerX - 0.5) * 6 + 0.2 * (x toe - x ankle))
                  (- (centerY - 0.5) * 6 - 0.2 * (y toe - y ankle))
                  (-2).
Proof.
  intros s model cam la ra lf rf ankle toe isLeft Hm Hc Hsel.
  exists (placeShoe ankle toe isLeft). split.
  - rewrite (positionARShoe_selected s model cam la ra lf rf ankle toe isLeft
               Hm Hc Hsel). reflexivity.
  - apply position_placeShoe.
Qed.

Lemma positionARShoe_position_witness :
  exists m,
    arShoeModel (positionARShoe None (Some ankleLevel) None (Some toeLevel)
                   activeSession) = Some m /\
    position m
    = mkVector3 (((0.3 + 0.4) / 2 - 0.5) * 6 + 0.2 * (0.4 - 0.3))
                (- ((0.5 + 0.5) / 2 - 0.5) * 6 - 0.2 * (0.5 - 0.5))
                (-2).
Proof.
  apply (positionARShoe_position activeSession clonedShoe {| aspect := 2 |}
           None (Some ankleLevel) None (Some toeLevel) ankleLevel toeLevel
           false);
    reflexivity.
Defined.

(** C5 as worded fails: for the right foot with ankle (0.3, 0.5) and toe
    (0.4, 0.5) the shoe is put at x = -0.88, where an offset taken in the
    mapped space would give x = -0.78. *)
Lemma position_as_specified_fails :
  ~ position_as_specified activeSession
      None (Some ankleLevel) None (Some toeLevel).
Proof.
  intros H.
  destruct (H ankleLevel toeLevel false eq_refl) as (m & Hm & Hp).
  rewrite (positionARShoe_selected activeSession clonedShoe {| aspect := 2 |}
             None (Some ankleLevel) None (Some toeLevel)
             _ _ false eq_refl eq_refl eq_refl) in Hm.
  cbn [arShoeModel set_arShoeModel] in Hm.
  injection Hm as <-.
  rewrite position_placeShoe in Hp.
  unfold specPosition, ankleLevel, toeLevel in Hp.
  cbv zeta in Hp. cbn [x y] in Hp.
  injection Hp as Hx _. lra.
Qed.

(** The x coordinate the code computes at that input. *)
Lemma position_example :
  vx (position (placeShoe ankleLevel toeLevel false)) = -0.88.
Proof.
  rewrite position_placeShoe. unfold ankleLevel, toeLevel. cbn [vx x]. lra.
Qed.

Lemma rotation_placeShoe ankle toe isLeft :
  rotation (placeShoe ankle toe isLeft)
  = mkVector3 0 (if isLeft then PI else 0)
      (- Math_atan2 (y toe - y ankle) (x toe - x ankle)).
Proof. destruct isLeft; reflexivity. Qed.

Lemma Math_atan2_level (a : R) : 0 < a -> Math_atan2 0 a = 0.
Proof.
  intros Ha. unfold Math_atan2.
  destruct (Rlt_dec 0 a) as [_ | Hn]; [| contradiction].
  replace (0 / a) with 0 by (unfold Rdiv; ring). apply atan_0.
Qed.

(** C6: placing a chosen foot with ankle-to-toe vector (dx, dy) sets the
    in-plane rotation to [-atan2(dy, dx)]; the rotation about the vertical
    axis is PI (a 180 degree flip) for the left foot and 0 for the right
    foot; the rotation about X is 0. *)
Theorem positionARShoe_rotation :
  forall (s : ARState) (model : Object3D) (cam : Camera)
         (la ra lf rf : option Landmark) (ankle toe : Landmark)
         (isLeft : bool),
    arShoeModel s = Some model ->
    arCamera s = Some cam ->
    selectFoot la ra lf rf = (Some ankle, Some toe, isLeft) ->
    exists m,
      arShoeModel (positionARShoe la ra lf rf s) = Some m /\
      vz (rotation m) = - Math_atan2 (y toe - y ankle) (x toe - x ankle) /\
      vy (rotation m) = (if isLeft then PI else 0) /\
      vx (rotation m) = 0.
Proof.
  intros s model cam la ra lf rf ankle toe isLeft Hm Hc Hsel.
  exists (placeShoe ankle toe isLeft). split.
  - rewrite (positionARShoe_selected s model cam la ra lf rf ankle toe isLeft
               Hm Hc Hsel). reflexivity.
  - rewrite rotation_placeShoe. repeat split.
Qed.

(** The mirroring example of the specification: the left foot with ankle
    (0.3, 0.5) and toe (0.4, 0.5) carries the flip, the same landmarks as a
    right foot do not; both lie level, at in-plane angle 0. *)
Lemma positionARShoe_rotation_witness :
  (exists m,
     arShoeModel (positionARShoe (Some ankleLevel) None (Some toeLevel) None
                    activeSession) = Some m /\
     vz (rotation m) = - Math_atan2 (0.5 - 0.5) (0.4 - 0.3) /\
     vy (rotation m) = PI /\ vx (rotation m) = 0) /\
  (exists m,
     arShoeModel (positionARShoe None (Some ankleLevel) None (Some toeLevel)
                    activeSession) = Some m /\
     vz (rotation m) = - Math_atan2 (0.5 - 0.5) (0.4 - 0.3) /\
     vy (rotation m) = 0 /\ vx (rotation m) = 0).
Proof.
  split.
  - apply (positionARShoe_rotation activeSession clonedShoe {| aspect := 2 |}
             (Some ankleLevel) None (Some toeLevel) None ankleLevel toeLevel
             true);
      reflexivity.
  - apply (positionARShoe_rotation activeSession clonedShoe {| aspect := 2 |}
             None (Some ankleLevel) None (Some toeLevel) ankleLevel toeLevel
             false);
      reflexivity.
Defined.

Lemma rotation_example_angle : - Math_atan2 (0.5 - 0.5) (0.4 - 0.3) = 0.
Proof.
  replace (0.5 - 0.5) with 0 by lra.
  rewrite Math_atan2_level by lra. ring.
Qed.

(** ** Scale *)

Lemma clamp_max_min (v : R) :
  Math_max 0.05 (Math_min 0.15 v) = clamp v 0.05 0.15.
Proof.
  unfold Math_max, Math_min, Rmax, Rmin, clamp.
  destruct (Rle_dec 0.15 v), (Rlt_dec v 0.05), (Rlt_dec 0.15 v);
    try lra;
    match goal with |- context [Rle_dec ?a ?b] => destruct (Rle_dec a b) end;
    lra.
Qed.

Lemma clamp_bounds (v lo hi : R) : lo <= hi -> lo <= clamp v lo hi <= hi.
Proof.
  intros H. unfold clamp.
  destruct (Rlt_dec v lo); [lra |].
  destruct (Rlt_dec hi v); lra.
Qed.

Lemma footLength_euclidean (ankle toe : Landmark) :
  Math_sqrt (Math_pow (x toe - x ankle) 2 + Math_pow (y toe - y ankle) 2)
  = euclideanDistance ankle toe.
Proof.
  unfold Math_sqrt, Math_pow, euclideanDistance, Rsqr. f_equal. ring.
Qed.

Lemma scale_placeShoe ankle toe isLeft :
  scale (placeShoe ankle toe isLeft)
  = let d := clamp (euclideanDistance ankle toe * 2) 0.05 0.15 in
    mkVector3 d d d.
Proof.
  unfold placeShoe; cbv zeta; cbn [scale].
  rewrite clamp_max_min, footLength_euclidean. reflexivity.
Qed.

(** C7: placing a chosen foot sets the three scale components to
    [clamp(footLength * 2, 0.05, 0.15)], [footLength] the Euclidean distance
    of ankle and toe; that value lies in [0.05, 0.15] for every input, and
    is 0.05 when ankle and toe coincide. *)
Theorem positionARShoe_scale :
  forall (s : ARState) (model : Object3D) (cam : Camera)
         (la ra lf rf : option Landmark) (ankle toe : Landmark)
         (isLeft : bool),
    arShoeModel s = Some model ->
    arCamera s = Some cam ->
    selectFoot la ra lf rf = (Some ankle, Some toe, isLeft) ->
    exists m d,
      arShoeModel (positionARShoe la ra lf rf s) = Some m /\
      scale m = mkVector3 d d d /\
      d = clamp (euclideanDistance ankle toe * 2) 0.05 0.15 /\
      0.05 <= d <= 0.15 /\
      (x ankle = x toe -> y ankle = y toe -> d = 0.05).
Proof.
  intros s model cam la ra lf rf ankle toe isLeft Hm Hc Hsel.
  exists (placeShoe ankle toe isLeft),
         (clamp (euclideanDistance ankle toe * 2) 0.05 0.15).
  split; [| split; [| split; [| split]]].
  - rewrite (positionARShoe_selected s model cam la ra lf rf ankle toe isLeft
               Hm Hc Hsel). reflexivity.
  - apply scale_placeShoe.
  - reflexivity.
  - apply clamp_bounds. lra.
  - intros Hx Hy. unfold euclideanDistance. rewrite Hx, Hy.
    replace (Rsqr (x toe - x toe) + Rsqr (y toe - y toe)) with 0
      by (unfold Rsqr; ring).
    rewrite sqrt_0. unfold clamp.
    destruct (Rlt_dec (0 * 2) 0.05); [reflexivity | lra].
Qed.

Lemma positionARShoe_scale_witness :
  exists m d,
    arShoeModel (positionARShoe None (Some ankleR) None (Some ankleR)
                   activeSession) = Some m /\
    scale m = mkVector3 d d d /\
    d = clamp (euclideanDistance ankleR ankleR * 2) 0.05 0.15 /\
    0.05 <= d <= 0.15 /\
    (0.5 = 0.5 -> 0.6 = 0.6 -> d = 0.05).
Proof.
  apply (positionARShoe_scale activeSession clonedShoe {| aspect := 2 |}
           None (Some ankleR) None (Some ankleR) ankleR ankleR false);
    reflexivity.
Defined.

(** ** Independence from the session state and from earlier frames *)

Lemma camera_render s : arCamera (render s) = arCamera s.
Proof. frame_step render. Qed.

Lemma camera_hideShoe s : arCamera (hideShoe s) = arCamera s.
Proof. frame_step hideShoe. Qed.

Lemma camera_positionARShoe la ra lf rf s :
  arCamera (positionARShoe la ra lf rf s) = arCamera s.
Proof. frame_step positionARShoe. Qed.

Lemma present_positionARShoe la ra lf rf s :
  truthy (arShoeModel (positionARShoe la ra lf rf s))
  = truthy (arShoeModel s).
Proof. frame_step positionARShoe. Qed.

Lemma present_hideShoe s :
  truthy (arShoeModel (hideShoe s)) = truthy (arShoeModel s).
Proof. frame_step hideShoe. Qed.

Lemma presence_onFootLandmarks la ra lh rh lf rf s :
  truthy (arShoeModel (onFootLandmarks la ra lh rh lf rf s))
  = truthy (arShoeModel s) /\
  arCamera (onFootLandmarks la ra lh rh lf rf s) = arCamera s.
Proof.
  unfold onFootLandmarks, drawPoseDetectionIndicator.
  destruct ((2 <=? countVisible [la; lh; lf])%nat
            || (2 <=? countVisible [ra; rh; rf])%nat);
    [destruct (truthy ra && truthy rf || truthy la && truthy lf) |];
    rewrite ?model_render, ?camera_render, ?present_positionARShoe,
      ?camera_positionARShoe, ?model_paint, ?camera_paint,
      ?present_hideShoe, ?camera_hideShoe, ?model_drawFootIndicators,
      ?camera_drawFootIndicators, ?model_updateARStatus,
      ?camera_updateARStatus;
    split; reflexivity.
Qed.

Lemma presence_onNoPose s :
  truthy (arShoeModel (onNoPose s)) = truthy (arShoeModel s) /\
  arCamera (onNoPose s) = arCamera s.
Proof.
  unfold onNoPose, drawNoPoseIndicator.
  rewrite model_paint, camera_paint, present_hideShoe, camera_hideShoe,
    model_updateARStatus, camera_updateARStatus.
  split; reflexivity.
Qed.

Lemma presence_onPoseResults results s :
  truthy (arShoeModel (onPoseResults results s)) = truthy (arShoeModel s) /\
  truthy (arCamera (onPoseResults results s)) = truthy (arCamera s).
Proof.
  unfold onPoseResults.
  destruct (negb (isARMode s) || negb (truthy (arOverlayContext s))
            || negb (truthy (arOverlayCanvas s))); [split; reflexivity |].
  cbv zeta.
  assert (Hbase :
    truthy (arShoeModel (clearRect (resizeARCanvases s)))
    = truthy (arShoeModel s) /\
    truthy (arCamera (clearRect (resizeARCanvases s)))
    = truthy (arCamera s)).
  { rewrite model_clearRect, camera_clearRect, model_resizeARCanvases,
      camera_resizeARCanvases. split; reflexivity. }
  destruct Hbase as [Hm Hc].
  destruct (poseLandmarks results) as [l |];
    [destruct (33 <=? List.length l)%nat |].
  - destruct (presence_onFootLandmarks
                (visibleLandmark l 27) (visibleLandmark l 28)
                (visibleLandmark l 29) (visibleLandmark l 30)
                (visibleLandmark l 31) (visibleLandmark l 32)
                (clearRect (resizeARCanvases s))) as [H1 H2].
    rewrite H1, H2. split; assumption.
  - destruct (presence_onNoPose (clearRect (resizeARCanvases s)))
      as [H1 H2].
    rewrite H1, H2. split; assumption.
  - destruct (presence_onNoPose (clearRect (resizeARCanvases s)))
      as [H1 H2].
    rewrite H1, H2. split; assumption.
Qed.

Lemma presence_onFrames frames s :
  truthy (arShoeModel (onFrames frames s)) = truthy (arShoeModel s) /\
  truthy (arCamera (onFrames frames s)) = truthy (arCamera s).
Proof.
  revert s. induction frames as [| r frames IH]; intros s.
  - split; reflexivity.
  - unfold onFrames in *. simpl.
    destruct (IH (onPoseResults r s)) as [H1 H2].
    destruct (presence_onPoseResults r s) as [H3 H4].
    rewrite H1, H2. split; assumption.
Qed.

Lemma model_positionARShoe_selected s la ra lf rf ankle toe isLeft :
  truthy (arShoeModel s) = true ->
  truthy (arCamera s) = true ->
  selectFoot la ra lf rf = (Some ankle, Some toe, isLeft) ->
  arShoeModel (positionARShoe la ra lf rf s)
  = Some (placeShoe ankle toe isLeft).
Proof.
  intros Hm Hc Hsel.
  destruct (arShoeModel s) as [m |] eqn:Em; [| discriminate].
  destruct (arCamera s) as [c |] eqn:Ec; [| discriminate].
  rewrite (positionARShoe_selected s m c la ra lf rf ankle toe isLeft
             Em Ec Hsel). reflexivity.
Qed.

(** C8: the transform [positionARShoe] writes for a chosen foot is a
    function of the chosen ankle, toe and side alone: it is the same from
    any two session states that hold a shoe model and a camera, the same
    after any run of earlier frames, the same for any other landmark
    arguments that choose the same ankle, toe and side, and repeating the
    call changes nothing. *)
Theorem positionARShoe_pure :
  forall (s1 s2 : ARState) (m1 m2 : Object3D) (c1 c2 : Camera)
         (la ra lf rf : option Landmark) (ankle toe : Landmark)
         (isLeft : bool),
    arShoeModel s1 = Some m1 -> arCamera s1 = Some c1 ->
    arShoeModel s2 = Some m2 -> arCamera s2 = Some c2 ->
    selectFoot la ra lf rf = (Some ankle, Some toe, isLeft) ->
    arShoeModel (positionARShoe la ra lf rf s1)
    = arShoeModel (positionARShoe la ra lf rf s2) /\
    (forall frames,
       arShoeModel (positionARShoe la ra lf rf (onFrames frames s1))
       = arShoeModel (positionARShoe la ra lf rf s1)) /\
    (forall la' ra' lf' rf',
       selectFoot la' ra' lf' rf' = (Some ankle, Some toe, isLeft) ->
       arShoeModel (positionARShoe la' ra' lf' rf' s1)
       = arShoeModel (positionARShoe la ra lf rf s1)) /\
    positionARShoe la ra lf rf (positionARShoe la ra lf rf s1)
    = positionARShoe la ra lf rf s1.
Proof.
  intros s1 s2 m1 m2 c1 c2 la ra lf rf ankle toe isLeft
         Hm1 Hc1 Hm2 Hc2 Hsel.
  assert (H1 : arShoeModel (positionARShoe la ra lf rf s1)
               = Some (placeShoe ankle toe isLeft)).
  { apply model_positionARShoe_selected; auto; [rewrite Hm1 | rewrite Hc1];
      reflexivity. }
  rewrite H1. repeat split.
  - symmetry. apply model_positionARShoe_selected; auto;
      [rewrite Hm2 | rewrite Hc2]; reflexivity.
  - intros frames.
    destruct (presence_onFrames frames s1) as [Pm Pc].
    apply model_positionARShoe_selected; auto;
      [rewrite Pm, Hm1 | rewrite Pc, Hc1]; reflexivity.
  - intros la' ra' lf' rf' Hsel'.
    apply model_positionARShoe_selected; auto; [rewrite Hm1 | rewrite Hc1];
      reflexivity.
  - rewrite (positionARShoe_selected s1 m1 c1 la ra lf rf ankle toe isLeft
               Hm1 Hc1 Hsel).
    rewrite (positionARShoe_selected
               (set_arShoeModel (Some (placeShoe ankle toe isLeft)) s1)
               (placeShoe ankle toe isLeft) c1 la ra lf rf ankle toe isLeft
               eq_refl Hc1 Hsel).
    reflexivity.
Qed.

Lemma positionARShoe_pure_witness :
  arShoeModel (positionARShoe None (Some ankleR) None (Some toeR)
                 activeSession)
  = arShoeModel (positionARShoe None (Some ankleR) None (Some toeR)
                   (exitARMode activeSession)).
Proof.
  apply (positionARShoe_pure activeSession (exitARMode activeSession)
           clonedShoe clonedShoe {| aspect := 2 |} {| aspect := 2 |}
           None (Some ankleR) None (Some toeR) ankleR toeR false);
    reflexivity.
Defined.

(** ** The sample frames *)

Ltac eval_visible :=
  unfold ankleOf, heelOf, toeOf, visibleLandmark; cbn [nth_error repeat app];
  unfold ankleR, toeR, toeR_dim, toeR_border, heelR, unseen, ankleLevel,
    toeLevel;
  cbn [visibility]; rewrite ?gt_true, ?gt_false by lra; reflexivity.

Lemma active_activeSession : active activeSession.
Proof. unfold active, activeSession; simpl. repeat split; discriminate. Qed.

Lemma locked_right_ankle :
  ankleOf RightSide lockedLandmarks = Some ankleR.
Proof. unfold lockedLandmarks. eval_visible. Qed.

Lemma locked_right_toe :
  toeOf RightSide lockedLandmarks = Some toeR.
Proof. unfold lockedLandmarks. eval_visible. Qed.

Lemma locked_left_ankle : ankleOf LeftSide lockedLandmarks = None.
Proof. unfold lockedLandmarks. eval_visible. Qed.

Lemma locked_left_toe : toeOf LeftSide lockedLandmarks = None.
Proof. unfold lockedLandmarks. eval_visible. Qed.

Lemma partial_right_ankle :
  ankleOf RightSide partialLandmarks = Some ankleR.
Proof. unfold partialLandmarks. eval_visible. Qed.

Lemma partial_right_heel :
  heelOf RightSide partialLandmarks = Some heelR.
Proof. unfold partialLandmarks. eval_visible. Qed.

Lemma partial_right_toe : toeOf RightSide partialLandmarks = None.
Proof. unfold partialLandmarks. eval_visible. Qed.

Lemma partial_left_ankle : ankleOf LeftSide partialLandmarks = None.
Proof. unfold partialLandmarks. eval_visible. Qed.

Lemma partial_left_toe : toeOf LeftSide partialLandmarks = None.
Proof. unfold partialLandmarks. eval_visible. Qed.

Lemma locked_complete : complete RightSide lockedLandmarks.
Proof.
  unfold complete. rewrite locked_right_ankle, locked_right_toe.
  split; discriminate.
Qed.

Lemma partial_good : good RightSide partialLandmarks.
Proof.
  unfold good, visibleCount.
  rewrite partial_right_ankle, partial_right_heel, partial_right_toe.
  simpl. lia.
Qed.

Lemma partial_incomplete side : ~ complete side partialLandmarks.
Proof.
  unfold complete. destruct side.
  - rewrite partial_left_ankle. intros [H _]. congruence.
  - rewrite partial_right_toe. intros [_ H]. congruence.
Qed.

Lemma onPoseResults_status_witness :
  ar_status (document (onPoseResults lockedFrame activeSession))
  = Some (statusElementOf FeetLocked).
Proof.
  apply (onPoseResults_status lockedFrame activeSession
           {| textContent := "Looking for feet...";
              className := "ar-status detecting" |}
           active_activeSession eq_refl).
  apply (derive_locked lockedFrame lockedLandmarks eq_refl).
  - simpl. lia.
  - right. exact locked_complete.
Defined.

(** ** The session stays active across frames *)

Ltac active_step f :=
  intros;
  match goal with st : ARState |- _ => destruct st end;
  unfold active, f in *; simpl in *; split_matches; simpl;
  repeat match goal with
         | |- context [option_map _ ?o] => is_var o; destruct o
         end;
  simpl; intuition congruence.

Lemma active_paint ops s : active s -> active (paint ops s).
Proof. active_step paint. Qed.

Lemma active_updateARStatus message type s :
  active s -> active (updateARStatus message type s).
Proof. active_step updateARStatus. Qed.

Lemma active_resizeARCanvases s : active s -> active (resizeARCanvases s).
Proof. active_step resizeARCanvases. Qed.

Lemma active_clearRect s : active s -> active (clearRect s).
Proof. active_step clearRect. Qed.

Lemma active_render s : active s -> active (render s).
Proof. active_step render. Qed.

Lemma active_hideShoe s : active s -> active (hideShoe s).
Proof. active_step hideShoe. Qed.

Lemma active_positionARShoe la ra lf rf s :
  active s -> active (positionARShoe la ra lf rf s).
Proof. active_step positionARShoe. Qed.

Lemma active_drawIfPresent lm label color s :
  active s -> active (drawIfPresent lm label color s).
Proof.
  intros H. destruct lm; simpl; [apply active_paint |]; exact H.
Qed.

Lemma active_drawFootIndicators la ra lf rf s :
  active s -> active (drawFootIndicators la ra lf rf s).
Proof.
  intros H. unfold drawFootIndicators, drawFootConnection.
  destruct ra, rf, la, lf; try apply active_paint;
    repeat apply active_drawIfPresent; exact H.
Qed.

Lemma active_onFootLandmarks la ra lh rh lf rf s :
  active s -> active (onFootLandmarks la ra lh rh lf rf s).
Proof.
  intros H. unfold onFootLandmarks, drawPoseDetectionIndicator.
  destruct ((2 <=? countVisible [la; lh; lf])%nat
            || (2 <=? countVisible [ra; rh; rf])%nat);
    [destruct (truthy ra && truthy rf || truthy la && truthy lf) |].
  - apply active_render, active_positionARShoe, active_drawFootIndicators,
      active_updateARStatus, H.
  - apply active_render, active_drawFootIndicators, active_updateARStatus, H.
  - apply active_paint, active_hideShoe, active_updateARStatus, H.
Qed.

Lemma active_onNoPose s : active s -> active (onNoPose s).
Proof.
  intros H. unfold onNoPose, drawNoPoseIndicator.
  apply active_paint, active_hideShoe, active_updateARStatus, H.
Qed.

Lemma active_onPoseResults results s :
  active s -> active (onPoseResults results s).
Proof.
  intros H. rewrite (onPoseResults_active results s H). cbv zeta.
  assert (H' : active (clearRect (resizeARCanvases s)))
    by apply active_clearRect, active_resizeARCanvases, H.
  destruct (poseLandmarks results) as [l |];
    [destruct (33 <=? List.length l)%nat |].
  - apply active_onFootLandmarks, H'.
  - apply active_onNoPose, H'.
  - apply active_onNoPose, H'.
Qed.

(** ** What a frame does to the shoe model *)

Lemma model_onPoseResults_complete results l s ankle toe isLeft :
  active s ->
  truthy (arShoeModel s) = true ->
  truthy (arCamera s) = true ->
  poseLandmarks results = Some l ->
  (33 <= List.length l)%nat ->
  selectFoot (ankleOf LeftSide l) (ankleOf RightSide l)
    (toeOf LeftSide l) (toeOf RightSide l) = (Some ankle, Some toe, isLeft) ->
  arShoeModel (onPoseResults results s) = Some (placeShoe ankle toe isLeft).
Proof.
  intros Ha Hm Hc Hl Hlen Hsel.
  rewrite (onPoseResults_active results s Ha). cbv zeta. rewrite Hl.
  replace (33 <=? List.length l)%nat with true
    by (symmetry; apply Nat.leb_le; exact Hlen).
  rewrite onFootLandmarks_complete
    by (apply (selectFoot_complete _ _ _ _ _ _ _ Hsel)).
  rewrite model_render.
  apply model_positionARShoe_selected; [| | exact Hsel].
  - rewrite model_drawFootIndicators, model_updateARStatus, model_clearRect,
      model_resizeARCanvases. exact Hm.
  - rewrite camera_drawFootIndicators, camera_updateARStatus,
      camera_clearRect, camera_resizeARCanvases. exact Hc.
Qed.

Lemma model_onPoseResults_partial results l s :
  active s ->
  poseLandmarks results = Some l ->
  (33 <= List.length l)%nat ->
  good LeftSide l \/ good RightSide l ->
  ~ complete LeftSide l -> ~ complete RightSide l ->
  arShoeModel (onPoseResults results s) = arShoeModel s.
Proof.
  intros Ha Hl Hlen Hg Hcl Hcr.
  rewrite (onPoseResults_active results s Ha). cbv zeta. rewrite Hl.
  replace (33 <=? List.length l)%nat with true
    by (symmetry; apply Nat.leb_le; exact Hlen).
  unfold onFootLandmarks.
  rewrite (bool_false_of_not _ _ (complete_iff LeftSide l) Hcl).
  rewrite (bool_false_of_not _ _ (complete_iff RightSide l) Hcr).
  assert (Hgb :
    (2 <=? countVisible [ankleOf LeftSide l; heelOf LeftSide l;
                         toeOf LeftSide l])%nat
    || (2 <=? countVisible [ankleOf RightSide l; heelOf RightSide l;
                            toeOf RightSide l])%nat = true).
  { apply orb_true_iff. rewrite !good_iff. exact Hg. }
  rewrite Hgb. cbn [orb].
  rewrite model_render, model_drawFootIndicators, model_updateARStatus,
    model_clearRect, model_resizeARCanvases.
  reflexivity.
Qed.

(** ** A partial foot after a placed one *)

(** C1, evaluated on the code: after the locked frame has placed the shoe,
    the next frame sees the right ankle and heel but not the right toe (and
    nothing of the left foot).  The status becomes FeetPartial, yet the shoe
    model is still the one the locked frame placed, and it is visible; the
    same frame arriving first leaves the freshly cloned shoe visible. *)
Theorem partial_frame_keeps_shoe_visible :
  (ankleOf RightSide partialLandmarks = Some ankleR /\
   toeOf RightSide partialLandmarks = None /\
   ankleOf LeftSide partialLandmarks = None /\
   toeOf LeftSide partialLandmarks = None) /\
  ar_status (document (onFrames [lockedFrame; partialFrame] activeSession))
  = Some (statusElementOf FeetPartial) /\
  arShoeModel (onFrames [lockedFrame; partialFrame] activeSession)
  = Some (placeShoe ankleR toeR false) /\
  visible (placeShoe ankleR toeR false) = true /\
  arShoeModel (onPoseResults partialFrame activeSession) = Some clonedShoe /\
  visible clonedShoe = true.
Proof.
  change (onFrames [lockedFrame; partialFrame] activeSession)
    with (onPoseResults partialFrame
            (onPoseResults lockedFrame activeSession)).
  set (s1 := onPoseResults lockedFrame activeSession).
  set (ankle := ankleR). set (toe := toeR).
  assert (Ha1 : active s1)
    by (apply active_onPoseResults, active_activeSession).
  assert (Hlen1 : (33 <= List.length lockedLandmarks)%nat)
    by (simpl; lia).
  assert (Hlen2 : (33 <= List.length partialLandmarks)%nat)
    by (simpl; lia).
  assert (Hst1 : ar_status (document s1)
                 = Some (statusElementOf FeetLocked)).
  { apply (status_derived lockedFrame activeSession _ FeetLocked
             active_activeSession eq_refl).
    apply (derive_locked lockedFrame lockedLandmarks eq_refl Hlen1).
    right. exact locked_complete. }
  assert (Hm1 : arShoeModel s1 = Some (placeShoe ankle toe false)).
  { apply (model_onPoseResults_complete lockedFrame lockedLandmarks
             activeSession ankle toe false active_activeSession
             eq_refl eq_refl eq_refl Hlen1).
    rewrite locked_right_ankle, locked_right_toe. reflexivity. }
  split.
  { split; [apply partial_right_ankle |].
    split; [apply partial_right_toe |].
    split; [apply partial_left_ankle | apply partial_left_toe]. }
  split.
  { apply (status_derived partialFrame s1 _ FeetPartial Ha1 Hst1).
    apply (derive_partial partialFrame partialLandmarks eq_refl Hlen2).
    - right. exact partial_good.
    - apply partial_incomplete.
    - apply partial_incomplete. }
  split.
  { rewrite (model_onPoseResults_partial partialFrame partialLandmarks s1
               Ha1 eq_refl Hlen2 (or_intror partial_good)
               (partial_incomplete LeftSide) (partial_incomplete RightSide)).
    exact Hm1. }
  split; [reflexivity |].
  split; [| reflexivity].
  apply (model_onPoseResults_partial partialFrame partialLandmarks
           activeSession active_activeSession eq_refl Hlen2
           (or_intror partial_good)
           (partial_incomplete LeftSide) (partial_incomplete RightSide)).
Qed.

(** ** The left foot and a complete right foot *)

Lemma agree_off_left_right l l' :
  agree_off_left l l' ->
  ankleOf RightSide l = ankleOf RightSide l' /\
  toeOf RightSide l = toeOf RightSide l'.
Proof.
  intros H. unfold ankleOf, toeOf, visibleLandmark.
  rewrite (H 28%nat), (H 32%nat) by lia. split; reflexivity.
Qed.

Lemma model_positionARShoe la ra lf rf s :
  arShoeModel (positionARShoe la ra lf rf s)
  = match arShoeModel s, arCamera s with
    | Some model, Some _ =>
        match selectFoot la ra lf rf with
        | (Some ankle, Some toe, isLeft) =>
            Some (placeShoe ankle toe isLeft)
        | _ => Some (set_visible false model)
        end
    | _, _ => arShoeModel s
    end.
Proof.
  unfold positionARShoe.
  destruct (arShoeModel s) eqn:Em, (arCamera s) eqn:Ec; auto.
  destruct (selectFoot la ra lf rf) as [[[a |] [t |]] b]; reflexivity.
Qed.

Lemma model_onFootLandmarks_right la lh rh lf ra rt s :
  arShoeModel (onFootLandmarks la (Some ra) lh rh lf (Some rt) s)
  = arShoeModel (positionARShoe None (Some ra) None (Some rt) s).
Proof.
  rewrite onFootLandmarks_complete by reflexivity.
  rewrite model_render, !model_positionARShoe.
  rewrite model_drawFootIndicators, camera_drawFootIndicators,
    model_updateARStatus, camera_updateARStatus.
  reflexivity.
Qed.

(** C10: when the right ankle and the right toe pass validation, the shoe
    model a frame leaves (position, rotation with its mirror component,
    scale, visibility) is the same for any two landmark arrays that differ
    only in the left foot's slots; with a shoe model and a camera in an
    active session it is the placement of the right foot. *)
Theorem left_foot_noninterference :
  forall (s : ARState) (l l' : list (option Landmark))
         (ankle toe : Landmark),
    (33 <= List.length l)%nat ->
    (33 <= List.length l')%nat ->
    agree_off_left l l' ->
    ankleOf RightSide l = Some ankle ->
    toeOf RightSide l = Some toe ->
    arShoeModel (onPoseResults {| poseLandmarks := Some l |} s)
    = arShoeModel (onPoseResults {| poseLandmarks := Some l' |} s) /\
    (active s -> arShoeModel s <> None -> arCamera s <> None ->
     arShoeModel (onPoseResults {| poseLandmarks := Some l' |} s)
     = Some (placeShoe ankle toe false)).
Proof.
  intros s l l' ankle toe Hlen Hlen' Hagree Hra Hrt.
  destruct (agree_off_left_right l l' Hagree) as [Ea Et].
  assert (Hra' : ankleOf RightSide l' = Some ankle) by congruence.
  assert (Hrt' : toeOf RightSide l' = Some toe) by congruence.
  split.
  - unfold onPoseResults.
    destruct (negb (isARMode s) || negb (truthy (arOverlayContext s))
              || negb (truthy (arOverlayCanvas s))); [reflexivity |].
    cbv zeta. cbn [poseLandmarks].
    replace (33 <=? List.length l)%nat with true
      by (symmetry; apply Nat.leb_le; exact Hlen).
    replace (33 <=? List.length l')%nat with true
      by (symmetry; apply Nat.leb_le; exact Hlen').
    unfold ankleOf, toeOf in Hra, Hrt, Hra', Hrt'.
    rewrite Hra, Hrt, Hra', Hrt'.
    rewrite !model_onFootLandmarks_right. reflexivity.
  - intros Ha Hm Hc.
    apply (model_onPoseResults_complete _ l' s ankle toe false Ha);
      [apply truthy_Some_iff; exact Hm | apply truthy_Some_iff; exact Hc
      | reflexivity | exact Hlen' |].
    rewrite Hra', Hrt'. reflexivity.
Qed.

Lemma locked_bothFeet_agree : agree_off_left lockedLandmarks bothFeetLandmarks.
Proof.
  intros i H27 H29 H31.
  do 33 (destruct i as [| i]; [try reflexivity; lia |]).
  destruct i; reflexivity.
Qed.

Lemma left_foot_noninterference_witness :
  arShoeModel (onPoseResults {| poseLandmarks := Some lockedLandmarks |}
                 activeSession)
  = arShoeModel (onPoseResults {| poseLandmarks := Some bothFeetLandmarks |}
                   activeSession).
Proof.
  apply (left_foot_noninterference activeSession lockedLandmarks
           bothFeetLandmarks ankleR toeR).
  - simpl. lia.
  - simpl. lia.
  - exact locked_bothFeet_agree.
  - exact locked_right_ankle.
  - exact locked_right_toe.
Defined.

(** ** Leaving AR mode *)

Lemma nth_error_stopTracks i streams0 tracks :
  nth_error streams0 i = Some tracks ->
  nth_error (stopTracks i streams0) i = Some (map (fun _ => ended) tracks).
Proof.
  revert i. induction streams0 as [| st rest IH]; intros [| j] H;
    simpl in *; try discriminate.
  - injection H as ->. reflexivity.
  - apply IH. exact H.
Qed.

Lemma all_ended (tracks : MediaStream) :
  Forall (fun t => t = ended) (map (fun _ => ended) tracks).
Proof. induction tracks; simpl; constructor; auto. Qed.

Lemma onPoseResults_inactive results s :
  isARMode s = false -> onPoseResults results s = s.
Proof. intros H. unfold onPoseResults. rewrite H. reflexivity. Qed.

Lemma onFrames_inactive frames s :
  isARMode s = false -> onFrames frames s = s.
Proof.
  intros H. induction frames as [| r frames IH]; [reflexivity |].
  unfold onFrames in *. simpl. rewrite (onPoseResults_inactive r s H).
  exact IH.
Qed.

Lemma isARMode_exitARMode s : isARMode (exitARMode s) = false.
Proof. reflexivity. Qed.

Lemma model_exitARMode s : arShoeModel (exitARMode s) = arShoeModel s.
Proof.
  destruct s as [d st m v oc ox gc cam rd sc sh vs].
  destruct vs, d as [[e |] c1 c2 c3 c4 c5 c6 c7]; reflexivity.
Qed.

(** C9, as amended: leaving AR mode stops every track of the camera stream
    and drops the stream, gives the page's ar-container element (when there
    is one) the class 'hidden' while leaving the shoe model's own visibility
    flag as it was, resets the status line to 'Looking for feet...' with no
    category, and clears [isARMode]; every run of pose callbacks delivered
    afterwards leaves the whole state unchanged. *)
Theorem exitARMode_teardown :
  forall s : ARState,
    (forall i tracks,
       videoStream s = Some i ->
       nth_error (streams s) i = Some tracks ->
       exists tracks',
         nth_error (streams (exitARMode s)) i = Some tracks' /\
         List.length tracks' = List.length tracks /\
         Forall (fun t => t = ended) tracks') /\
    videoStream (exitARMode s) = None /\
    ar_container (document (exitARMode s))
    = option_map (fun _ => true) (ar_container (document s)) /\
    arShoeModel (exitARMode s) = arShoeModel s /\
    ar_status (document (exitARMode s))
    = option_map (fun _ => resetStatus) (ar_status (document s)) /\
    isARMode (exitARMode s) = false /\
    (forall frames, onFrames frames (exitARMode s) = exitARMode s).
Proof.
  intros s. split; [| split; [| split; [| split; [| split; [| split]]]]].
  - intros i tracks Hv Hn.
    exists (map (fun _ => ended) tracks). split; [| split].
    + destruct s as [d st m v oc ox gc cam rd sc sh vs].
      simpl in Hv, Hn. subst vs.
      destruct d as [[e |] c1 c2 c3 c4 c5 c6 c7];
        apply (nth_error_stopTracks i st tracks Hn).
    + apply length_map.
    + apply all_ended.
  - destruct s as [d st m v oc ox gc cam rd sc sh vs].
    destruct vs, d as [[e |] c1 c2 c3 c4 c5 c6 c7]; reflexivity.
  - destruct s as [d st m v oc ox gc cam rd sc sh vs].
    destruct vs, d as [[e |] c1 c2 c3 c4 c5 c6 c7]; reflexivity.
  - apply model_exitARMode.
  - destruct s as [d st m v oc ox gc cam rd sc sh vs].
    destruct vs, d as [[e |] c1 c2 c3 c4 c5 c6 c7]; reflexivity.
  - reflexivity.
  - intros frames. apply onFrames_inactive. reflexivity.
Qed.

Lemma exitARMode_teardown_witness :
  exists tracks',
    nth_error (streams (exitARMode activeSession)) 0 = Some tracks' /\
    List.length tracks' = List.length [live; live] /\
    Forall (fun t => t = ended) tracks'.
Proof.
  apply (proj1 (exitARMode_teardown activeSession) 0%nat [live; live]);
    reflexivity.
Defined.

(** C9 as worded fails for the tracked object: leaving AR mode right after
    the locked frame has placed the shoe leaves the shoe model visible. *)
Lemma exit_hides_object_fails :
  ~ exit_hides_object (onPoseResults lockedFrame activeSession).
Proof.
  intros H.
  assert (Hm : arShoeModel (exitARMode
                              (onPoseResults lockedFrame activeSession))
               = Some (placeShoe ankleR toeR false)).
  { rewrite model_exitARMode.
    apply (model_onPoseResults_complete lockedFrame lockedLandmarks
             activeSession _ _ false active_activeSession
             eq_refl eq_refl eq_refl).
    - simpl. lia.
    - rewrite locked_right_ankle, locked_right_toe. reflexivity. }
  specialize (H _ Hm). discriminate H.
Qed.

(** ** Mesh names: what [cleanMeshName] returns *)

Open Scope N_scope.

Ltac bprop :=
  unfold isWordChar, isWhiteSpace, isLowerCase, isSeparator in *;
  rewrite ?orb_true_iff, ?andb_true_iff, ?orb_false_iff, ?andb_false_iff,
    ?N.leb_le, ?N.leb_gt, ?N.eqb_eq, ?N.eqb_neq in *.

Lemma word_not_space c : isWordChar c = true -> isWhiteSpace c = false.
Proof. intros H. bprop. lia. Qed.

Lemma lower_is_word c : isLowerCase c = true -> isWordChar c = true.
Proof. intros H. bprop. lia. Qed.

Lemma upper_not_lower c : isLowerCase (toUpperCase c) = false.
Proof.
  unfold toUpperCase. destruct (isLowerCase c) eqn:E; [| exact E].
  bprop. lia.
Qed.

Lemma upper_word c : isWordChar (toUpperCase c) = isWordChar c.
Proof.
  unfold toUpperCase. destruct (isLowerCase c) eqn:E; [| reflexivity].
  apply eq_iff_eq_true. bprop. lia.
Qed.

Lemma upper_fixed c : isLowerCase c = false -> toUpperCase c = c.
Proof. unfold toUpperCase. intros ->. reflexivity. Qed.

Lemma upper_not_separator c : notSeparator c -> notSeparator (toUpperCase c).
Proof.
  unfold notSeparator, toUpperCase. intros H.
  destruct (isLowerCase c) eqn:E; [| exact H].
  bprop. lia.
Qed.

Lemma upper_space c : isWhiteSpace (toUpperCase c) = isWhiteSpace c.
Proof.
  unfold toUpperCase. destruct (isLowerCase c) eqn:E; [| reflexivity].
  apply eq_iff_eq_true. bprop. lia.
Qed.

Lemma separator_not_space c : isSeparator c = true -> isWhiteSpace c = false.
Proof. intros H. bprop. lia. Qed.

(** *** Separators *)
Lemma replaceSeparators_clean s : Forall notSeparator (replaceSeparators s).
Proof.
  induction s as [| c r IH]; simpl; constructor; auto.
  destruct (isSeparator c) eqn:E; [reflexivity | exact E].
Qed.

Lemma replaceSeparators_fixed s :
  Forall notSeparator s -> replaceSeparators s = s.
Proof.
  induction 1 as [| c r Hc _ IH]; simpl; [reflexivity |].
  unfold notSeparator in Hc. rewrite Hc, IH. reflexivity.
Qed.

Lemma replaceSeparators_blank s :
  Forall (fun c => isWhiteSpace c = true) (replaceSeparators s) <->
  Forall (fun c => isSeparator c = true \/ isWhiteSpace c = true) s.
Proof.
  induction s as [| c r IH]; simpl.
  - split; constructor.
  - split; intros H; inversion H as [| ? ? Hc Hr]; subst; constructor;
      try (apply IH; exact Hr).
    + destruct (isSeparator c); auto.
    + destruct Hc as [Hc | Hc]; [rewrite Hc; reflexivity |].
      destruct (isSeparator c); [reflexivity | exact Hc].
Qed.

(** *** Capitals *)
Lemma capitalizeFrom_capitalized p s : capitalized p (capitalizeFrom p s).
Proof.
  revert p. induction s as [| c r IH]; intros p; simpl; [exact I |].
  split.
  - destruct (isWordChar c) eqn:W, p; simpl; intros H; auto.
    + rewrite upper_not_lower in H. discriminate.
    + apply lower_is_word in H. congruence.
  - replace (isWordChar (if isWordChar c && negb p then toUpperCase c else c))
      with (isWordChar c)
      by (destruct (isWordChar c && negb p); [rewrite upper_word |];
          reflexivity).
    apply IH.
Qed.

Lemma capitalizeFrom_fixed p s :
  capitalized p s -> capitalizeFrom p s = s.
Proof.
  revert p. induction s as [| c r IH]; intros p; simpl; [reflexivity |].
  intros [Hc Hr]. rewrite (IH _ Hr). f_equal.
  destruct (isWordChar c && negb p) eqn:E; [| reflexivity].
  apply upper_fixed. destruct (isLowerCase c); [| reflexivity].
  rewrite (Hc eq_refl) in E. rewrite andb_false_r in E. discriminate.
Qed.

Lemma capitalizeFrom_Forall (P : N -> Prop) p s :
  (forall c, P c -> P (toUpperCase c)) ->
  Forall P s -> Forall P (capitalizeFrom p s).
Proof.
  intros HP H. revert p. induction H as [| c r Hc _ IH]; intros p; simpl;
    constructor; auto.
  destruct (isWordChar c && negb p); auto.
Qed.

Lemma capitalizeFrom_blank p s :
  Forall (fun c => isWhiteSpace c = true) (capitalizeFrom p s) <->
  Forall (fun c => isWhiteSpace c = true) s.
Proof.
  revert p. induction s as [| c r IH]; intros p; simpl.
  - split; constructor.
  - split; intros H; inversion H as [| ? ? Hc Hr]; subst; constructor;
      try (apply (IH (isWordChar c)); exact Hr).
    + destruct (isWordChar c && negb p); [rewrite upper_space in Hc |];
        exact Hc.
    + destruct (isWordChar c && negb p); [rewrite upper_space |]; exact Hc.
Qed.

(** *** Runs of white space *)
Lemma collapseFrom_singleSpaced b s : singleSpaced b (collapseFrom b s).
Proof.
  revert b. induction s as [| c r IH]; intros b; simpl; [exact I |].
  destruct (isWhiteSpace c) eqn:E.
  - destruct b; [apply IH |]. simpl. split; [auto | apply IH].
  - simpl. rewrite E. split; [discriminate | apply IH].
Qed.

Lemma collapseFrom_fixed b s : singleSpaced b s -> collapseFrom b s = s.
Proof.
  revert b. induction s as [| c r IH]; intros b; simpl; [reflexivity |].
  intros [Hc Hr]. destruct (isWhiteSpace c) eqn:E.
  - destruct (Hc eq_refl) as [-> ->]. rewrite (IH _ Hr). reflexivity.
  - rewrite (IH _ Hr). reflexivity.
Qed.

Lemma collapseFrom_Forall (P : N -> Prop) b s :
  P 32 -> Forall P s -> Forall P (collapseFrom b s).
Proof.
  intros H32 H. revert b. induction H as [| c r Hc _ IH]; intros b; simpl;
    [constructor |].
  destruct (isWhiteSpace c); [destruct b |]; auto.
Qed.

Lemma collapseFrom_capitalized p b s :
  (b = true -> p = false) ->
  capitalized p s -> capitalized p (collapseFrom b s).
Proof.
  revert p b. induction s as [| c r IH]; intros p b Hb; simpl; [auto |].
  intros [Hc Hr]. destruct (isWhiteSpace c) eqn:E.
  - assert (W : isWordChar c = false).
    { destruct (isWordChar c) eqn:W; [| reflexivity].
      apply word_not_space in W. congruence. }
    rewrite W in Hr. destruct b.
    + rewrite (Hb eq_refl). apply IH; auto.
    + simpl. split; [discriminate |]. apply IH; auto.
  - simpl. split; [exact Hc |]. apply IH; [discriminate | exact Hr].
Qed.

Lemma collapseFrom_blank b s :
  Forall (fun c => isWhiteSpace c = true) (collapseFrom b s) <->
  Forall (fun c => isWhiteSpace c = true) s.
Proof.
  revert b. induction s as [| c r IH]; intros b; simpl.
  - split; constructor.
  - destruct (isWhiteSpace c) eqn:E.
    + split; intros H.
      * constructor; [exact E |].
        destruct b; [apply (IH true); exact H |].
        inversion H; subst. apply (IH true). assumption.
      * inversion H; subst.
        destruct b; [apply IH; assumption |].
        constructor; [reflexivity | apply IH; assumption].
    + split; intros H; inversion H; subst; congruence.
Qed.

(** *** Trimming *)
Lemma trimStart_split s :
  exists pre, s = pre ++ trimStart s /\
              Forall (fun c => isWhiteSpace c = true) pre.
Proof.
  induction s as [| c r (pre & Hs & Hp)]; simpl.
  - exists []. split; [reflexivity | constructor].
  - destruct (isWhiteSpace c) eqn:E.
    + exists (c :: pre). split; [simpl; congruence | constructor; auto].
    + exists []. split; [reflexivity | constructor].
Qed.

Lemma trimStart_noLeadingSpace s : noLeadingSpace (trimStart s).
Proof.
  induction s as [| c r IH]; simpl; [exact I |].
  destruct (isWhiteSpace c) eqn:E; [exact IH | exact E].
Qed.

Lemma trimStart_fixed s : noLeadingSpace s -> trimStart s = s.
Proof. destruct s as [| c r]; simpl; [reflexivity |]. intros ->. reflexivity. Qed.

Lemma trimStart_blank s :
  trimStart s = [] <-> Forall (fun c => isWhiteSpace c = true) s.
Proof.
  induction s as [| c r IH]; simpl.
  - split; [constructor | reflexivity].
  - destruct (isWhiteSpace c) eqn:E.
    + rewrite IH. split; intros H; [constructor; auto |].
      inversion H; assumption.
    + split; [discriminate |]. intros H. inversion H; congruence.
Qed.

Lemma trimStart_singleSpaced p q s :
  singleSpaced p s -> singleSpaced q (trimStart s).
Proof.
  revert p. induction s as [| c r IH]; intros p; simpl; [auto |].
  intros [Hc Hr]. destruct (isWhiteSpace c) eqn:E.
  - apply (IH _ Hr).
  - simpl. rewrite E. split; [discriminate | exact Hr].
Qed.

Lemma trimStart_capitalized s :
  capitalized false s -> capitalized false (trimStart s).
Proof.
  induction s as [| c r IH]; simpl; [auto |].
  intros [Hc Hr]. destruct (isWhiteSpace c) eqn:E.
  - apply IH.
    destruct (isWordChar c) eqn:W; [| exact Hr].
    apply word_not_space in W. congruence.
  - simpl. split; assumption.
Qed.

Lemma singleSpaced_app p a b :
  singleSpaced p (a ++ b) <->
  singleSpaced p a /\
  singleSpaced (fold_left (fun _ c => isWhiteSpace c) a p) b.
Proof.
  revert p. induction a as [| c r IH]; intros p; simpl.
  - tauto.
  - rewrite IH. tauto.
Qed.

Lemma capitalized_app p a b :
  capitalized p (a ++ b) <->
  capitalized p a /\
  capitalized (fold_left (fun _ c => isWordChar c) a p) b.
Proof.
  revert p. induction a as [| c r IH]; intros p; simpl.
  - tauto.
  - rewrite IH. tauto.
Qed.

Lemma fold_last (f : N -> bool) a p :
  fold_left (fun _ c => f c) a p
  = match rev a with [] => p | c :: _ => f c end.
Proof.
  induction a as [| c r IH] using rev_ind; [reflexivity |].
  rewrite fold_left_app, rev_app_distr. reflexivity.
Qed.

Lemma trimEnd_split s :
  exists post, s = trimEnd s ++ post /\
               Forall (fun c => isWhiteSpace c = true) post.
Proof.
  destruct (trimStart_split (rev s)) as (pre & Hs & Hp).
  exists (rev pre). split.
  - unfold trimEnd. rewrite <- rev_app_distr, <- Hs, rev_involutive.
    reflexivity.
  - apply Forall_rev. exact Hp.
Qed.

Lemma trimEnd_noTrailingSpace s : noTrailingSpace (trimEnd s).
Proof.
  unfold noTrailingSpace, trimEnd. rewrite rev_involutive.
  apply trimStart_noLeadingSpace.
Qed.

Lemma trimEnd_fixed s : noTrailingSpace s -> trimEnd s = s.
Proof.
  unfold noTrailingSpace, trimEnd. intros H.
  rewrite (trimStart_fixed _ H). apply rev_involutive.
Qed.

Lemma trimEnd_noLeadingSpace s : noLeadingSpace s -> noLeadingSpace (trimEnd s).
Proof.
  destruct (trimEnd_split s) as (post & Hs & _).
  destruct (trimEnd s) as [| c r]; [intros; exact I |].
  rewrite Hs. simpl. auto.
Qed.

Lemma trimEnd_blank s :
  trimEnd s = [] <-> Forall (fun c => isWhiteSpace c = true) s.
Proof.
  unfold trimEnd. split.
  - intros H. apply (f_equal (@rev N)) in H. rewrite rev_involutive in H.
    simpl in H. apply trimStart_blank in H.
    rewrite <- (rev_involutive s). apply Forall_rev. exact H.
  - intros H. apply Forall_rev in H. apply trimStart_blank in H.
    rewrite H. reflexivity.
Qed.

Lemma Forall_prefix (P : N -> Prop) a b : Forall P (a ++ b) -> Forall P a.
Proof. intros H. apply Forall_app in H. tauto. Qed.

Lemma trim_Forall (P : N -> Prop) s : Forall P s -> Forall P (trim s).
Proof.
  intros H. unfold trim.
  destruct (trimStart_split s) as (pre & Hs & _).
  destruct (trimEnd_split (trimStart s)) as (post & Ht & _).
  rewrite Hs in H. apply Forall_app in H. destruct H as [_ H].
  rewrite Ht in H. apply Forall_app in H. tauto.
Qed.

Lemma trim_singleSpaced p q s : singleSpaced p s -> singleSpaced q (trim s).
Proof.
  intros H. unfold trim.
  apply (trimStart_singleSpaced p q) in H.
  destruct (trimEnd_split (trimStart s)) as (post & Ht & _).
  rewrite Ht in H. apply singleSpaced_app in H. tauto.
Qed.

Lemma trim_capitalized s : capitalized false s -> capitalized false (trim s).
Proof.
  intros H. unfold trim. apply trimStart_capitalized in H.
  destruct (trimEnd_split (trimStart s)) as (post & Ht & _).
  rewrite Ht in H. apply capitalized_app in H. tauto.
Qed.

Lemma trim_noLeadingSpace s : noLeadingSpace (trim s).
Proof. apply trimEnd_noLeadingSpace, trimStart_noLeadingSpace. Qed.

Lemma trim_noTrailingSpace s : noTrailingSpace (trim s).
Proof. apply trimEnd_noTrailingSpace. Qed.

Lemma trim_fixed s : noLeadingSpace s -> noTrailingSpace s -> trim s = s.
Proof.
  intros H1 H2. unfold trim. rewrite (trimStart_fixed _ H1).
  apply trimEnd_fixed, H2.
Qed.

Lemma trim_blank s :
  trim s = [] <-> Forall (fun c => isWhiteSpace c = true) s.
Proof.
  unfold trim. rewrite trimEnd_blank. split; intros H.
  - destruct (trimStart_split s) as (pre & Hs & Hp).
    rewrite Hs. apply Forall_app. split; assumption.
  - destruct (trimStart_split s) as (pre & Hs & Hp).
    rewrite Hs in H. apply Forall_app in H. tauto.
Qed.

Lemma cleanCore_facts name :
  Forall notSeparator (cleanCore name) /\
  capitalized false (cleanCore name) /\
  singleSpaced false (cleanCore name) /\
  noLeadingSpace (cleanCore name) /\
  noTrailingSpace (cleanCore name).
Proof.
  unfold cleanCore, collapseWhiteSpace, capitalizeWords.
  split; [| split; [| split; [| split]]].
  - apply trim_Forall, collapseFrom_Forall; [reflexivity |].
    apply capitalizeFrom_Forall; [apply upper_not_separator |].
    apply replaceSeparators_clean.
  - apply trim_capitalized, collapseFrom_capitalized; [discriminate |].
    apply capitalizeFrom_capitalized.
  - apply (trim_singleSpaced false), collapseFrom_singleSpaced.
  - apply trim_noLeadingSpace.
  - apply trim_noTrailingSpace.
Qed.

Lemma singleSpaced_nth p s i c :
  singleSpaced p s ->
  nth_error s i = Some c ->
  isWhiteSpace c = true ->
  c = 32 /\
  (i = 0%nat -> p = false) /\
  (forall j d, i = S j -> nth_error s j = Some d -> isWhiteSpace d = false).
Proof.
  revert p i. induction s as [| a r IH]; intros p i Hs Hn Hc.
  - destruct i; discriminate.
  - destruct Hs as [Ha Hr]. destruct i as [| i]; simpl in Hn.
    + injection Hn as ->. destruct (Ha Hc) as [-> ->].
      repeat split; auto. intros j d Hj. discriminate.
    + destruct (IH _ _ Hr Hn Hc) as (H32 & H0 & Hprev).
      split; [exact H32 |]. split; [discriminate |].
      intros j d Hj Hd. injection Hj as <-.
      destruct i as [| i]; simpl in Hd.
      * injection Hd as <-. apply H0. reflexivity.
      * apply (Hprev i d eq_refl Hd).
Qed.

Lemma capitalized_nth p s i c :
  capitalized p s ->
  nth_error s i = Some c ->
  isLowerCase c = true ->
  (i = 0%nat -> p = true) /\
  (forall j, i = S j ->
     exists d, nth_error s j = Some d /\ isWordChar d = true).
Proof.
  revert p i. induction s as [| a r IH]; intros p i Hs Hn Hc.
  - destruct i; discriminate.
  - destruct Hs as [Ha Hr]. destruct i as [| i]; simpl in Hn.
    + injection Hn as ->. split; [auto | discriminate].
    + destruct (IH _ _ Hr Hn Hc) as (H0 & Hprev).
      split; [discriminate |].
      intros j Hj. injection Hj as <-.
      destruct i as [| i].
      * exists a. split; [reflexivity | apply H0; reflexivity].
      * destruct (Hprev i eq_refl) as (d & Hd & Hw).
        exists d. split; assumption.
Qed.

Lemma suffix_capitalized q : capitalized q (fromAscii " Color").
Proof. simpl. repeat split; auto; discriminate. Qed.

Lemma cleanMeshName_capitalized_all name :
  capitalized false (cleanMeshName name).
Proof.
  unfold cleanMeshName. apply capitalized_app.
  split; [apply cleanCore_facts | apply suffix_capitalized].
Qed.

Lemma cleanMeshName_singleSpaced_all name :
  singleSpaced false (cleanMeshName name).
Proof.
  unfold cleanMeshName. apply singleSpaced_app.
  split; [apply cleanCore_facts |].
  rewrite fold_last.
  destruct (cleanCore_facts name) as (_ & _ & _ & _ & Ht).
  unfold noTrailingSpace in Ht.
  destruct (rev (cleanCore name)) as [| c r]; simpl in *.
  - repeat split; auto; discriminate.
  - rewrite Ht. repeat split; auto; discriminate.
Qed.

Lemma capitalizeFrom_length p s :
  List.length (capitalizeFrom p s) = List.length s.
Proof. revert p. induction s; intros p; simpl; auto. Qed.

Lemma collapseFrom_length b s :
  (List.length (collapseFrom b s) <= List.length s)%nat.
Proof.
  revert b. induction s as [| c r IH]; intros b; simpl; [lia |].
  pose proof (IH true). pose proof (IH false).
  destruct (isWhiteSpace c); [destruct b |]; simpl; lia.
Qed.

Lemma trim_length s : (List.length (trim s) <= List.length s)%nat.
Proof.
  unfold trim.
  destruct (trimStart_split s) as (pre & Hs & _).
  destruct (trimEnd_split (trimStart s)) as (post & Ht & _).
  rewrite Hs at 2. rewrite Ht at 2. rewrite !length_app. lia.
Qed.

Lemma cleanCore_length name :
  (List.length (cleanCore name) <= List.length name)%nat.
Proof.
  unfold cleanCore, collapseWhiteSpace, capitalizeWords.
  eapply Nat.le_trans; [apply trim_length |].
  eapply Nat.le_trans; [apply collapseFrom_length |].
  rewrite capitalizeFrom_length. unfold replaceSeparators.
  rewrite length_map. lia.
Qed.

(** X1: the label [cleanMeshName] returns is a core followed by ' Color';
    the core is no longer than the name and neither starts nor ends with
    white space; every white space code unit of the label is a plain space
    (U+0020) and is not preceded by another white space. *)
Theorem cleanMeshName_spacing :
  forall name : JSString,
    exists core : JSString,
      cleanMeshName name = core ++ fromAscii " Color" /\
      (List.length core <= List.length name)%nat /\
      noLeadingSpace core /\ noTrailingSpace core /\
      forall (i : nat) (c : N),
        nth_error (cleanMeshName name) i = Some c ->
        isWhiteSpace c = true ->
        c = 32 /\
        forall j d, i = S j -> nth_error (cleanMeshName name) j = Some d ->
                    isWhiteSpace d = false.
Proof.
  intros name. exists (cleanCore name).
  destruct (cleanCore_facts name) as (_ & _ & _ & Hl & Ht).
  split; [reflexivity |]. split; [apply cleanCore_length |].
  split; [exact Hl |]. split; [exact Ht |].
  intros i c Hn Hc.
  destruct (singleSpaced_nth false _ i c
              (cleanMeshName_singleSpaced_all name) Hn Hc) as (H & _ & Hp).
  split; assumption.
Qed.

(** X2: the label [cleanMeshName] returns contains neither an underscore
    nor a hyphen. *)
Theorem cleanMeshName_no_separators :
  forall (name : JSString) (c : N),
    In c (cleanMeshName name) -> c <> 95 /\ c <> 45.
Proof.
  intros name c Hin.
  assert (H : Forall notSeparator (cleanMeshName name)).
  { unfold cleanMeshName. apply Forall_app. split.
    - apply cleanCore_facts.
    - repeat constructor. }
  rewrite Forall_forall in H. specialize (H c Hin).
  unfold notSeparator, isSeparator in H.
  apply orb_false_iff in H. destruct H as [H1 H2].
  apply N.eqb_neq in H1, H2. split; assumption.
Qed.

(** X3: in the label [cleanMeshName] returns every lower-case ASCII letter
    directly follows a word character (letter, digit or underscore): no word
    starts with a lower-case letter. *)
Theorem cleanMeshName_capitalized :
  forall (name : JSString) (i : nat) (c : N),
    nth_error (cleanMeshName name) i = Some c ->
    isLowerCase c = true ->
    exists j d, i = S j /\ nth_error (cleanMeshName name) j = Some d /\
                isWordChar d = true.
Proof.
  intros name i c Hn Hc.
  destruct (capitalized_nth false _ i c
              (cleanMeshName_capitalized_all name) Hn Hc) as (H0 & Hp).
  destruct i as [| j]; [specialize (H0 eq_refl); discriminate |].
  destruct (Hp j eq_refl) as (d & Hd & Hw).
  exists j, d. repeat split; assumption.
Qed.

(** X4: [cleanMeshName] returns the bare suffix ' Color' exactly for the
    names made only of underscores, hyphens and white space (the empty name
    included). *)
Theorem cleanMeshName_blank :
  forall name : JSString,
    cleanMeshName name = fromAscii " Color" <->
    Forall (fun c => c = 95 \/ c = 45 \/ isWhiteSpace c = true) name.
Proof.
  intros name.
  assert (Hcore : cleanMeshName name = fromAscii " Color" <->
                  cleanCore name = []).
  { unfold cleanMeshName. split; intros H.
    - change (fromAscii " Color") with ([] ++ fromAscii " Color") in H at 2.
      apply app_inv_tail in H. exact H.
    - rewrite H. reflexivity. }
  rewrite Hcore. unfold cleanCore, collapseWhiteSpace, capitalizeWords.
  rewrite trim_blank, collapseFrom_blank, capitalizeFrom_blank,
    replaceSeparators_blank.
  split; intros H; eapply Forall_impl; try exact H; cbv beta; intros c Hc.
  - destruct Hc as [Hc | Hc]; [| auto].
    unfold isSeparator in Hc. apply orb_true_iff in Hc.
    rewrite !N.eqb_eq in Hc. tauto.
  - destruct Hc as [-> | [-> | Hc]]; auto.
Qed.

(** X5: cleaning is idempotent: the cleaned core is a fixed point of the
    cleaning chain, so cleaning a label's core again gives the same label. *)
Theorem cleanCore_idempotent :
  forall name : JSString,
    cleanCore (cleanCore name) = cleanCore name /\
    cleanMeshName (cleanCore name) = cleanMeshName name.
Proof.
  intros name.
  assert (H : cleanCore (cleanCore name) = cleanCore name).
  { destruct (cleanCore_facts name) as (Hs & Hc & Hw & Hl & Ht).
    unfold cleanCore at 1. unfold collapseWhiteSpace, capitalizeWords.
    rewrite (replaceSeparators_fixed _ Hs), (capitalizeFrom_fixed _ _ Hc),
      (collapseFrom_fixed _ _ Hw).
    apply trim_fixed; assumption. }
  split; [exact H |]. unfold cleanMeshName. rewrite H. reflexivity.
Qed.

Lemma cleanMeshName_spacing_witness :
  nth_error (cleanMeshName (fromAscii "shoe__lace - left ")) 4 = Some 32 /\
  nth_error (cleanMeshName (fromAscii "shoe__lace - left ")) 3 = Some 101 /\
  isWhiteSpace 101 = false.
Proof.
  destruct (cleanMeshName_spacing (fromAscii "shoe__lace - left "))
    as (core & _ & _ & _ & _ & H).
  destruct (H 4%nat 32 eq_refl eq_refl) as [_ Hprev].
  split; [reflexivity |]. split; [reflexivity |].
  apply (Hprev 3%nat 101 eq_refl eq_refl).
Defined.

Lemma cleanMeshName_no_separators_witness :
  In 76 (cleanMeshName (fromAscii "shoe_lace-left")) /\ 76 <> 95 /\ 76 <> 45.
Proof.
  assert (Hin : In 76 (cleanMeshName (fromAscii "shoe_lace-left"))).
  { vm_compute. do 5 right. left. reflexivity. }
  split; [exact Hin |].
  apply (cleanMeshName_no_separators (fromAscii "shoe_lace-left") 76 Hin).
Defined.

Lemma cleanMeshName_capitalized_witness :
  exists j d,
    6%nat = S j /\
    nth_error (cleanMeshName (fromAscii "shoe_lace-left")) j = Some d /\
    isWordChar d = true.
Proof.
  apply (cleanMeshName_capitalized (fromAscii "shoe_lace-left") 6 97);
    reflexivity.
Defined.

Lemma cleanMeshName_blank_witness :
  cleanMeshName (fromAscii "_- _") = fromAscii " Color".
Proof.
  apply (cleanMeshName_blank (fromAscii "_- _")).
  unfold fromAscii. simpl.
  repeat (apply Forall_cons;
          [first [left; reflexivity | right; left; reflexivity
                 | right; right; reflexivity] |]).
  apply Forall_nil.
Defined.

Close Scope N_scope.

(** ** Where the shoe can be put *)

(** X6: for an ankle and a toe inside the image, the position
    [positionARShoe] gives the shoe lies in the square [-3, 3] x [-3, 3] at
    depth -2. *)
Theorem positionARShoe_in_view :
  forall (s : ARState) (model : Object3D) (cam : Camera)
         (la ra lf rf : option Landmark) (ankle toe : Landmark)
         (isLeft : bool),
    arShoeModel s = Some model ->
    arCamera s = Some cam ->
    selectFoot la ra lf rf = (Some ankle, Some toe, isLeft) ->
    normalized ankle -> normalized toe ->
    exists m,
      arShoeModel (positionARShoe la ra lf rf s) = Some m /\
      -3 <= vx (position m) <= 3 /\
      -3 <= vy (position m) <= 3 /\
      vz (position m) = -2.
Proof.
  intros s model cam la ra lf rf ankle toe isLeft Hm Hc Hsel
         [Hax Hay] [Htx Hty].
  exists (placeShoe ankle toe isLeft). split.
  - rewrite (positionARShoe_selected s model cam la ra lf rf ankle toe isLeft
               Hm Hc Hsel). reflexivity.
  - rewrite position_placeShoe. cbn [vx vy vz]. repeat split; lra.
Qed.

Lemma normalized_ankleR : normalized ankleR.
Proof. unfold normalized, ankleR; simpl. lra. Qed.

Lemma normalized_toeR : normalized toeR.
Proof. unfold normalized, toeR; simpl. lra. Qed.

Lemma positionARShoe_in_view_witness :
  exists m,
    arShoeModel (positionARShoe None (Some ankleR) None (Some toeR)
                   activeSession) = Some m /\
    -3 <= vx (position m) <= 3 /\
    -3 <= vy (position m) <= 3 /\
    vz (position m) = -2.
Proof.
  apply (positionARShoe_in_view activeSession clonedShoe {| aspect := 2 |}
           None (Some ankleR) None (Some toeR) ankleR toeR false
           eq_refl eq_refl eq_refl normalized_ankleR normalized_toeR).
Defined.


(** ** Frames without feet *)

Lemma model_onNoPose s :
  arShoeModel (onNoPose s) = option_map (set_visible false) (arShoeModel s).
Proof.
  unfold onNoPose, drawNoPoseIndicator.
  rewrite model_paint, model_hideShoe, model_updateARStatus. reflexivity.
Qed.

(** X8: in an active session, a frame whose status is Searching (landmark
    array missing or shorter than 33) or PoseFound (neither side has two of
    its three foot landmarks) hides the shoe model and leaves its position,
    rotation and scale as they were. *)
Theorem onPoseResults_hides_without_feet :
  forall (results : PoseResults) (s : ARState) (st : TrackingStatus),
    active s ->
    DerivedStatus results st ->
    st = Searching \/ st = PoseFound ->
    arShoeModel (onPoseResults results s)
    = option_map (set_visible false) (arShoeModel s).
Proof.
  intros results s st Ha Hd Hst.
  rewrite (onPoseResults_active results s Ha). cbv zeta.
  assert (Hbase : arShoeModel (clearRect (resizeARCanvases s))
                  = arShoeModel s).
  { rewrite model_clearRect, model_resizeARCanvases. reflexivity. }
  destruct Hd as [Hn | l Hl Hlen | l Hl Hlen Hgl Hgr
                 | l Hl Hlen Hg Hcl Hcr | l Hl Hlen Hc];
    try (destruct Hst; discriminate).
  - rewrite Hn, model_onNoPose, Hbase. reflexivity.
  - rewrite Hl.
    replace (33 <=? List.length l)%nat with false
      by (symmetry; apply Nat.leb_gt; exact Hlen).
    rewrite model_onNoPose, Hbase. reflexivity.
  - rewrite Hl.
    replace (33 <=? List.length l)%nat with true
      by (symmetry; apply Nat.leb_le; exact Hlen).
    unfold onFootLandmarks.
    rewrite (bool_false_of_not _ _ (good_iff LeftSide l) Hgl).
    rewrite (bool_false_of_not _ _ (good_iff RightSide l) Hgr).
    cbn [orb]. unfold drawPoseDetectionIndicator.
    rewrite model_paint, model_hideShoe, model_updateARStatus, Hbase.
    reflexivity.
Qed.

Lemma onPoseResults_hides_without_feet_witness :
  arShoeModel (onPoseResults {| poseLandmarks := Some [Some ankleR] |}
                 activeSession)
  = option_map (set_visible false) (arShoeModel activeSession).
Proof.
  apply (onPoseResults_hides_without_feet
           {| poseLandmarks := Some [Some ankleR] |} activeSession Searching
           active_activeSession).
  - apply (derive_short {| poseLandmarks := Some [Some ankleR] |}
             [Some ankleR] eq_refl).
    simpl. lia.
  - left. reflexivity.
Defined.

(** ** What pose callbacks leave alone *)

Lemma sameSession_refl s : sameSession s s.
Proof. unfold sameSession. repeat split. Qed.

Lemma sameSession_trans s1 s2 s3 :
  sameSession s1 s2 -> sameSession s2 s3 -> sameSession s1 s3.
Proof.
  unfold sameSession.
  intros (A1 & A2 & A3 & A4 & A5 & A6 & A7 & A8 & A9 & A10 & A11 & A12 & A13)
         (B1 & B2 & B3 & B4 & B5 & B6 & B7 & B8 & B9 & B10 & B11 & B12 & B13).
  repeat split; congruence.
Qed.

Ltac same_step f :=
  intros;
  match goal with st : ARState |- _ => destruct st end;
  unfold sameSession, f; simpl;
  repeat match goal with
         | |- context [match ?o with _ => _ end] => is_var o; destruct o
         | |- context [option_map _ ?o] => is_var o; destruct o
         end;
  simpl; split_matches; simpl; repeat split; reflexivity.

Lemma same_paint ops s : sameSession s (paint ops s).
Proof. same_step paint. Qed.

Lemma same_updateARStatus message type s :
  sameSession s (updateARStatus message type s).
Proof.
  destruct s as [[e c1 c2 c3 c4 c5 c6 c7] st m v oc ox gc cam rd sc sh vs].
  unfold sameSession, updateARStatus. simpl.
  destruct e; simpl; repeat split; reflexivity.
Qed.

Lemma same_resizeARCanvases s : sameSession s (resizeARCanvases s).
Proof.
  destruct s as [d st m v oc ox gc cam rd sc sh vs].
  unfold sameSession, resizeARCanvases. simpl.
  destruct v, oc, gc; try (repeat split; reflexivity).
  destruct (negb _ && negb _); try (repeat split; reflexivity).
  destruct cam, rd, ox; simpl; repeat split; reflexivity.
Qed.

Lemma same_clearRect s : sameSession s (clearRect s).
Proof. same_step clearRect. Qed.

Lemma same_render s : sameSession s (render s).
Proof. same_step render. Qed.

Lemma same_hideShoe s : sameSession s (hideShoe s).
Proof. same_step hideShoe. Qed.

Lemma same_positionARShoe la ra lf rf s :
  sameSession s (positionARShoe la ra lf rf s).
Proof. same_step positionARShoe. Qed.

Lemma same_drawIfPresent lm label color s :
  sameSession s (drawIfPresent lm label color s).
Proof.
  destruct lm; simpl; [apply same_paint | apply sameSession_refl].
Qed.

Lemma same_drawFootIndicators la ra lf rf s :
  sameSession s (drawFootIndicators la ra lf rf s).
Proof.
  unfold drawFootIndicators, drawFootConnection.
  assert (H : sameSession s
                (drawIfPresent rf "R👟" "#ff6b6b"
                   (drawIfPresent lf "L👟" "#ff6b6b"
                      (drawIfPresent ra "R👣" "#00ff00"
                         (drawIfPresent la "L👣" "#00ff00" s))))).
  { eapply sameSession_trans; [| apply same_drawIfPresent].
    eapply sameSession_trans; [| apply same_drawIfPresent].
    eapply sameSession_trans; [| apply same_drawIfPresent].
    apply same_drawIfPresent. }
  destruct ra, rf, la, lf;
    solve [exact H
          | eapply sameSession_trans; [exact H | apply same_paint]].
Qed.

Lemma same_onFootLandmarks la ra lh rh lf rf s :
  sameSession s (onFootLandmarks la ra lh rh lf rf s).
Proof.
  unfold onFootLandmarks, drawPoseDetectionIndicator.
  destruct ((2 <=? countVisible [la; lh; lf])%nat
            || (2 <=? countVisible [ra; rh; rf])%nat);
    [destruct (truthy ra && truthy rf || truthy la && truthy lf) |].
  - eapply sameSession_trans; [| apply same_render].
    eapply sameSession_trans; [| apply same_positionARShoe].
    eapply sameSession_trans; [| apply same_drawFootIndicators].
    apply same_updateARStatus.
  - eapply sameSession_trans; [| apply same_render].
    eapply sameSession_trans; [| apply same_drawFootIndicators].
    apply same_updateARStatus.
  - eapply sameSession_trans; [| apply same_paint].
    eapply sameSession_trans; [| apply same_hideShoe].
    apply same_updateARStatus.
Qed.

Lemma same_onNoPose s : sameSession s (onNoPose s).
Proof.
  unfold onNoPose, drawNoPoseIndicator.
  eapply sameSession_trans; [| apply same_paint].
  eapply sameSession_trans; [| apply same_hideShoe].
  apply same_updateARStatus.
Qed.

Lemma same_onPoseResults results s : sameSession s (onPoseResults results s).
Proof.
  unfold onPoseResults.
  destruct (negb (isARMode s) || negb (truthy (arOverlayContext s))
            || negb (truthy (arOverlayCanvas s)));
    [apply sameSession_refl |].
  cbv zeta.
  assert (H : sameSession s (clearRect (resizeARCanvases s))).
  { eapply sameSession_trans; [apply same_resizeARCanvases
                              | apply same_clearRect]. }
  destruct (poseLandmarks results) as [l |];
    [destruct (33 <=? List.length l)%nat |];
    (eapply sameSession_trans; [exact H |]).
  - apply same_onFootLandmarks.
  - apply same_onNoPose.
  - apply same_onNoPose.
Qed.

(** X9: no run of pose callbacks changes the session flag, the media
    streams, the stream reference or the video element's size and source;
    none changes the 'hidden' class of the AR container or of the four
    buttons, the scene container's display style or the panel's 'ar-active'
    class; and none makes the status element, the scene object, the shoe
    model, the camera, the renderer, a canvas or the overlay context appear
    or disappear.  (What a frame does write, the shoe's transform and
    visibility, the canvas sizes, the overlay drawing, the camera aspect and
    the status text, is outside this statement.) *)
Theorem onFrames_keeps_session :
  forall (frames : list PoseResults) (s : ARState),
    sameSession s (onFrames frames s).
Proof.
  intros frames. induction frames as [| r frames IH]; intros s.
  - apply sameSession_refl.
  - unfold onFrames in *. simpl.
    eapply sameSession_trans; [apply same_onPoseResults | apply IH].
Qed.

(** ** The overlay *)

Lemma clear_after_resize ctx ctx' s :
  arOverlayContext s = Some ctx ->
  clearRect (resizeARCanvases (set_arOverlayContext (Some ctx') s))
  = clearRect (resizeARCanvases s).
Proof.
  destruct s as [d st m v oc ox gc cam rd sc sh vs]. simpl. intros ->.
  unfold resizeARCanvases. simpl.
  destruct v as [video |], oc, gc; try reflexivity.
  destruct (negb (videoWidth video =? 0)%Z
            && negb (videoHeight video =? 0)%Z);
    [destruct cam, rd |]; reflexivity.
Qed.

(** X10: in an active session the state a pose callback leaves does not
    depend on what the overlay showed before: the overlay is cleared before
    the frame draws. *)
Theorem onPoseResults_clears_overlay :
  forall (results : PoseResults) (s : ARState) (ctx ctx' : Context2D),
    active s ->
    arOverlayContext s = Some ctx ->
    onPoseResults results (set_arOverlayContext (Some ctx') s)
    = onPoseResults results s.
Proof.
  intros results s ctx ctx' Ha Hctx.
  assert (Ha' : active (set_arOverlayContext (Some ctx') s)).
  { destruct Ha as (H1 & H2 & H3). repeat split; auto; discriminate. }
  rewrite (onPoseResults_active results _ Ha').
  rewrite (onPoseResults_active results s Ha). cbv zeta.
  rewrite (clear_after_resize ctx ctx' s Hctx). reflexivity.
Qed.

Lemma onPoseResults_clears_overlay_witness :
  onPoseResults partialFrame
    (set_arOverlayContext
       (Some {| painted := [FillArc 1 2 10 "#00ff00"] |}) activeSession)
  = onPoseResults partialFrame activeSession.
Proof.
  apply (onPoseResults_clears_overlay partialFrame activeSession
           {| painted := [] |} _ active_activeSession eq_refl).
Defined.

Lemma painted_paint ops s ctx :
  arOverlayContext s = Some ctx ->
  arOverlayContext (paint ops s) = Some {| painted := painted ctx ++ ops |}.
Proof. intros H. unfold paint. rewrite H. reflexivity. Qed.

Lemma painted_drawIfPresent lm label color s ctx :
  arOverlayContext s = Some ctx ->
  exists marker,
    arOverlayContext (drawIfPresent lm label color s)
    = Some {| painted := painted ctx ++ marker |} /\
    List.length marker = (3 * List.length (filter truthy [lm]))%nat /\
    forallb (fun op => negb (isStrokeLine op)) marker = true.
Proof.
  intros H. destruct lm as [l |]; simpl.
  - eexists. split; [apply painted_paint; exact H |].
    split; reflexivity.
  - exists []. rewrite app_nil_r. destruct ctx. split; [exact H |].
    split; reflexivity.
Qed.

Lemma canvas_drawIfPresent lm label color s :
  arOverlayCanvas (drawIfPresent lm label color s) = arOverlayCanvas s.
Proof.
  destruct lm; simpl; [| reflexivity].
  unfold drawFootPoint, paint. destruct (arOverlayContext s); reflexivity.
Qed.

(** X11: [drawFootIndicators] adds to the overlay three drawing operations
    per landmark present among the two ankles and the two foot indices, none
    of them a line, followed by one dashed line exactly when a foot has both
    ankle and foot index; the line joins the ankle and foot index of the foot
    [selectFoot] picks for placement, scaled to the canvas. *)
Theorem drawFootIndicators_line :
  forall (la ra lf rf : option Landmark) (s : ARState) (ctx : Context2D),
    arOverlayContext s = Some ctx ->
    exists markers,
      arOverlayContext (drawFootIndicators la ra lf rf s)
      = Some {| painted :=
                  painted ctx ++ markers ++
                  match selectFoot la ra lf rf with
                  | (Some a, Some t, _) =>
                      [StrokeLine (x a * canvasWidth s) (y a * canvasHeight s)
                         (x t * canvasWidth s) (y t * canvasHeight s)
                         "#00ff00" 3 [5; 5]]
                  | _ => []
                  end |} /\
      List.length markers = (3 * presentCount [la; ra; lf; rf])%nat /\
      forallb (fun op => negb (isStrokeLine op)) markers = true.
Proof.
  intros la ra lf rf s ctx Hctx.
  unfold drawFootIndicators.
  destruct (painted_drawIfPresent la "L👣" "#00ff00" s ctx Hctx)
    as (m1 & H1 & L1 & S1).
  set (s1 := drawIfPresent la "L👣" "#00ff00" s) in *.
  destruct (painted_drawIfPresent ra "R👣" "#00ff00" s1 _ H1)
    as (m2 & H2 & L2 & S2).
  set (s2 := drawIfPresent ra "R👣" "#00ff00" s1) in *.
  destruct (painted_drawIfPresent lf "L👟" "#ff6b6b" s2 _ H2)
    as (m3 & H3 & L3 & S3).
  set (s3 := drawIfPresent lf "L👟" "#ff6b6b" s2) in *.
  destruct (painted_drawIfPresent rf "R👟" "#ff6b6b" s3 _ H3)
    as (m4 & H4 & L4 & S4).
  set (s4 := drawIfPresent rf "R👟" "#ff6b6b" s3) in *.
  cbn [painted] in H2, H3, H4.
  assert (Hcv : arOverlayCanvas s4 = arOverlayCanvas s).
  { unfold s4, s3, s2, s1. rewrite !canvas_drawIfPresent. reflexivity. }
  assert (Hw : canvasWidth s4 = canvasWidth s)
    by (unfold canvasWidth; rewrite Hcv; reflexivity).
  assert (Hh : canvasHeight s4 = canvasHeight s)
    by (unfold canvasHeight; rewrite Hcv; reflexivity).
  exists (m1 ++ m2 ++ m3 ++ m4).
  split; [| split].
  - unfold selectFoot, drawFootConnection. rewrite Hw, Hh.
    destruct ra as [a |], rf as [t |], la as [a' |], lf as [t' |];
      cbn [truthy andb];
      try (rewrite (painted_paint _ s4 _ H4); cbn [painted]);
      try rewrite H4; rewrite ?app_nil_r, <- ?app_assoc; reflexivity.
  - unfold presentCount. rewrite !length_app, L1, L2, L3, L4.
    destruct la, ra, lf, rf; reflexivity.
  - rewrite !forallb_app, S1, S2, S3, S4. reflexivity.
Qed.

Lemma drawFootIndicators_line_witness :
  exists markers,
    arOverlayContext
      (drawFootIndicators (Some ankleLevel) (Some ankleR) None (Some toeR)
         activeSession)
    = Some {| painted :=
                [] ++ markers ++
                [StrokeLine (x ankleR * 300) (y ankleR * 150)
                   (x toeR * 300) (y toeR * 150) "#00ff00" 3 [5; 5]] |} /\
    List.length markers = 9%nat /\
    forallb (fun op => negb (isStrokeLine op)) markers = true.
Proof.
  apply (drawFootIndicators_line (Some ankleLevel) (Some ankleR) None
           (Some toeR) activeSession {| painted := [] |} eq_refl).
Defined.

(** ** Resizing the canvases *)

(** X12: [resizeARCanvases] is idempotent; it changes nothing when the
    video reports a zero width or height; and when the video element and
    both canvases exist and the video has a size, it gives both canvases
    that size, the renderer (if any) that size and the camera (if any) the
    aspect width / height. *)
Theorem resizeARCanvases_aligns :
  forall s : ARState,
    resizeARCanvases (resizeARCanvases s) = resizeARCanvases s /\
    (forall video,
       arVideo s = Some video ->
       videoWidth video = 0%Z \/ videoHeight video = 0%Z ->
       resizeARCanvases s = s) /\
    (forall video c g,
       arVideo s = Some video ->
       arOverlayCanvas s = Some c ->
       ar3DCanvas s = Some g ->
       videoWidth video <> 0%Z -> videoHeight video <> 0%Z ->
       arOverlayCanvas (resizeARCanvases s)
       = Some {| width := videoWidth video; height := videoHeight video |} /\
       ar3DCanvas (resizeARCanvases s)
       = Some {| gl_width := videoWidth video;
                 gl_height := videoHeight video; gl_frame := None |} /\
       arRenderer (resizeARCanvases s)
       = option_map
           (fun _ => {| size := (videoWidth video, videoHeight video) |})
           (arRenderer s) /\
       arCamera (resizeARCanvases s)
       = option_map
           (fun _ => {| aspect := IZR (videoWidth video)
                                  / IZR (videoHeight video) |})
           (arCamera s)).
Proof.
  intros s. destruct s as [d st m v oc ox gc cam rd sc sh vs].
  split; [| split].
  - unfold resizeARCanvases. simpl.
    destruct v as [video |], oc, gc; try reflexivity.
    destruct (negb (videoWidth video =? 0)%Z
              && negb (videoHeight video =? 0)%Z) eqn:E; simpl.
    + destruct cam, rd, ox; simpl; rewrite E; reflexivity.
    + rewrite E. reflexivity.
  - intros video Hv Hz. simpl in Hv. subst v.
    unfold resizeARCanvases. simpl.
    destruct oc, gc; try reflexivity.
    replace (negb (videoWidth video =? 0)%Z
             && negb (videoHeight video =? 0)%Z) with false; [reflexivity |].
    destruct Hz as [Hz | Hz]; rewrite Hz; simpl;
      [reflexivity | rewrite andb_false_r; reflexivity].
  - intros video c g Hv Hc Hg Hw Hh. simpl in Hv, Hc, Hg. subst v oc gc.
    unfold resizeARCanvases. simpl.
    apply Z.eqb_neq in Hw, Hh. rewrite Hw, Hh. simpl.
    destruct cam, rd; simpl; repeat split; reflexivity.
Qed.

Lemma resizeARCanvases_aligns_witness :
  arOverlayCanvas (resizeARCanvases activeSession)
  = Some {| width := 1280; height := 720 |} /\
  ar3DCanvas (resizeARCanvases activeSession)
  = Some {| gl_width := 1280; gl_height := 720; gl_frame := None |} /\
  arRenderer (resizeARCanvases activeSession)
  = Some {| size := (1280, 720)%Z |} /\
  arCamera (resizeARCanvases activeSession)
  = Some {| aspect := IZR 1280 / IZR 720 |}.
Proof.
  apply (proj2 (proj2 (resizeARCanvases_aligns activeSession))
           {| videoWidth := 1280; videoHeight := 720;
              srcObject := Some 0%nat |}
           {| width := 300; height := 150 |}
           {| gl_width := 300; gl_height := 150; gl_frame := None |}
           eq_refl eq_refl eq_refl); discriminate.
Defined.

(** ** Leaving AR mode, again *)

Lemma stopTracks_length i l :
  List.length (stopTracks i l) = List.length l.
Proof.
  revert i. induction l as [| st rest IH]; intros [| j]; simpl; auto.
Qed.

Lemma stopTracks_other i j l :
  i <> j -> nth_error (stopTracks i l) j = nth_error l j.
Proof.
  revert i j. induction l as [| st rest IH]; intros [| i] [| j] H; simpl;
    try reflexivity; try contradiction.
  apply IH. congruence.
Qed.

(** X13: leaving AR mode twice is the same as leaving it once; it keeps
    the number of streams and touches no stream but the session's own; and
    it leaves the video element, both canvases, the overlay drawing, the
    camera, the renderer and the scene as they were. *)
Theorem exitARMode_idempotent :
  forall s : ARState,
    exitARMode (exitARMode s) = exitARMode s /\
    List.length (streams (exitARMode s)) = List.length (streams s) /\
    (forall j, videoStream s <> Some j ->
               nth_error (streams (exitARMode s)) j
               = nth_error (streams s) j) /\
    arVideo (exitARMode s) = arVideo s /\
    arOverlayCanvas (exitARMode s) = arOverlayCanvas s /\
    arOverlayContext (exitARMode s) = arOverlayContext s /\
    ar3DCanvas (exitARMode s) = ar3DCanvas s /\
    arCamera (exitARMode s) = arCamera s /\
    arRenderer (exitARMode s) = arRenderer s /\
    arScene (exitARMode s) = arScene s.
Proof.
  intros s.
  destruct s as [[e c1 c2 c3 c4 c5 c6 c7] st m v oc ox gc cam rd sc sh vs].
  split; [| split; [| split]].
  - destruct vs, e, c1, c2, c3, c4, c5, c6, c7; reflexivity.
  - destruct vs, e; simpl; rewrite ?stopTracks_length; reflexivity.
  - intros j Hj. simpl in Hj.
    destruct vs as [i |], e; simpl; try reflexivity;
      apply stopTracks_other; congruence.
  - destruct vs, e; repeat split; reflexivity.
Qed.

Lemma exitARMode_idempotent_witness :
  nth_error (streams (exitARMode secondSession)) 0
  = nth_error (streams secondSession) 0.
Proof.
  apply (proj1 (proj2 (proj2 (exitARMode_idempotent secondSession))) 0%nat).
  discriminate.
Defined.

(** ** Entering AR mode *)

Open Scope string_scope.

Lemma updateARStatus_overwrite m1 t1 m2 t2 s :
  updateARStatus m2 t2 (updateARStatus m1 t1 s) = updateARStatus m2 t2 s.
Proof.
  destruct s as [[e c1 c2 c3 c4 c5 c6 c7] st m v oc ox gc cam rd sc sh vs].
  destruct e; reflexivity.
Qed.

Lemma updateARStatus_status message type s :
  ar_status (document (updateARStatus message type s))
  = option_map (fun _ => {| textContent := message;
                            className := "ar-status " ++ type |})
      (ar_status (document s)).
Proof.
  unfold updateARStatus.
  destruct (ar_status (document s)) eqn:E; simpl; [reflexivity | exact E].
Qed.

(** The state with its status line blanked out. *)
Lemma updateARStatus_elsewhere message type s :
  set_document (set_ar_status None (document (updateARStatus message type s)))
    (updateARStatus message type s)
  = set_document (set_ar_status None (document s)) s.
Proof.
  destruct s as [[e c1 c2 c3 c4 c5 c6 c7] st m v oc ox gc cam rd sc sh vs].
  destruct e; reflexivity.
Qed.

Lemma enterARMode_catch_single errorName s :
  enterARMode_catch errorName s
  = updateARStatus
      (if String.eqb errorName "NotAllowedError"
       then "Camera permission denied. Please enable camera access."
       else if String.eqb errorName "NotFoundError"
            then "No camera found. Please connect a camera."
            else "Camera error. Please try again.")
      "error" s.
Proof.
  unfold enterARMode_catch.
  destruct (String.eqb errorName "NotAllowedError");
    [| destruct (String.eqb errorName "NotFoundError")];
    apply updateARStatus_overwrite.
Qed.

(** X14: when the camera request is rejected, [enterARMode] changes
    nothing but the status line, which ends with the category 'error' and a
    message chosen by the error's name: permission denied for
    NotAllowedError, no camera for NotFoundError, a generic camera error for
    any other name.  The session flag and the streams stay as they were. *)
Theorem enterARMode_rejected :
  forall (errorName : string) (loadedModel : option Object3D)
         (isMobile : bool) (s : ARState) (m : MobileClasses),
    let s' := fst (enterARMode (Rejected errorName) loadedModel isMobile s m)
    in
    snd (enterARMode (Rejected errorName) loadedModel isMobile s m) = m /\
    set_document (set_ar_status None (document s')) s'
    = set_document (set_ar_status None (document s)) s /\
    (exists message,
       ar_status (document s')
       = option_map (fun _ => {| textContent := message;
                                 className := "ar-status error" |})
           (ar_status (document s)) /\
       (errorName = "NotAllowedError" ->
        message = "Camera permission denied. Please enable camera access.")
       /\
       (errorName = "NotFoundError" ->
        message = "No camera found. Please connect a camera.") /\
       (errorName <> "NotAllowedError" -> errorName <> "NotFoundError" ->
        message = "Camera error. Please try again.")).
Proof.
  intros errorName loadedModel isMobile s m. cbv zeta.
  unfold enterARMode. cbn [fst snd].
  rewrite enterARMode_catch_single, updateARStatus_overwrite.
  split; [reflexivity |]. split; [apply updateARStatus_elsewhere |].
  eexists. split; [apply updateARStatus_status |].
  split; [| split].
  - intros ->. reflexivity.
  - intros ->. reflexivity.
  - intros H1 H2.
    apply String.eqb_neq in H1, H2. rewrite H1, H2. reflexivity.
Qed.

Lemma enterARMode_rejected_witness :
  exists message,
    ar_status
      (document
         (fst (enterARMode (Rejected "NotFoundError") None false
                 (exitARMode activeSession)
                 {| panel_ar_mode := false; video_front_camera := true |})))
    = option_map (fun _ => {| textContent := message;
                              className := "ar-status error" |})
        (ar_status (document (exitARMode activeSession))) /\
    message = "No camera found. Please connect a camera.".
Proof.
  destruct (enterARMode_rejected "NotFoundError" None false
              (exitARMode activeSession)
              {| panel_ar_mode := false; video_front_camera := true |})
    as (_ & _ & message & Hs & _ & Hfound & _).
  exists message. split; [exact Hs | apply Hfound; reflexivity].
Defined.

Close Scope string_scope.




(** X16: when the camera is granted but the page lacks its video element
    or its 3D canvas, [enterARMode] ends in its error handler: the stream
    stays registered with its tracks as granted, the session flag is left as
    it was, the AR interface is not shown, and the status line reports the
    generic camera error. *)
Theorem enterARMode_granted_but_failed :
  forall (tracks : MediaStream) (videoW videoH : Z)
         (loadedModel : option Object3D) (isMobile : bool)
         (s : ARState) (m : MobileClasses),
    arVideo s = None \/ ar3DCanvas s = None ->
    let s1 := fst (enterARMode (Granted tracks videoW videoH) loadedModel
                     isMobile s m) in
    isARMode s1 = isARMode s /\
    videoStream s1 = Some (List.length (streams s)) /\
    streams s1 = streams s ++ [tracks] /\
    set_ar_status None (document s1) = set_ar_status None (document s) /\
    ar_status (document s1)
    = option_map
        (fun _ => {| textContent := "Camera error. Please try again.";
                     className := "ar-status error" |})
        (ar_status (document s)) /\
    snd (enterARMode (Granted tracks videoW videoH) loadedModel isMobile s m)
    = m.
Proof.
  intros tracks videoW videoH loadedModel isMobile s m H.
  destruct s as [[e c1 c2 c3 c4 c5 c6 c7] st fl v oc ox gc cam rd sc sh vs].
  simpl in H. cbv zeta.
  unfold enterARMode, setupARScene, enterARMode_catch, updateARStatus.
  destruct H as [-> | ->].
  - destruct e; simpl; repeat split; reflexivity.
  - destruct v, e; simpl; repeat split; reflexivity.
Qed.

Lemma enterARMode_granted_but_failed_witness :
  videoStream
    (fst (enterARMode (Granted [live] 640 480) None false
            (set_ar3DCanvas None (exitARMode activeSession))
            {| panel_ar_mode := false; video_front_camera := true |}))
  = Some 1%nat /\
  isARMode
    (fst (enterARMode (Granted [live] 640 480) None false
            (set_ar3DCanvas None (exitARMode activeSession))
            {| panel_ar_mode := false; video_front_camera := true |}))
  = false.
Proof.
  destruct (enterARMode_granted_but_failed [live] 640 480 None false
              (set_ar3DCanvas None (exitARMode activeSession))
              {| panel_ar_mode := false; video_front_camera := true |}
              (or_intror eq_refl))
    as (H1 & H2 & _).
  split; [exact H2 | exact H1].
Defined.

(** ** The main view *)

Lemma lte_true (a b : R) : a <= b -> lte a b = true.
Proof. intros H. unfold lte. destruct (Rle_dec a b); [reflexivity | lra]. Qed.

Lemma lte_false (a b : R) : b < a -> lte a b = false.
Proof. intros H. unfold lte. destruct (Rle_dec a b); [lra | reflexivity]. Qed.

(** X17: once the main renderer and camera exist, a window resize event
    (its listeners run in registration order) always ends with the renderer
    at the full window size and the camera aspect width / height: on a
    window at most 768 wide the panel has been collapsed first, on a wider
    one the half-height branch does not apply, and there the panel is left
    as it was. *)
Theorem windowResized_full :
  forall (v : MainView) (a : R) (sz : R * R),
    cameraAspect v = Some a ->
    rendererSize v = Some sz ->
    exists v',
      windowResized v = Some v' /\
      rendererSize v' = Some (innerWidth v, innerHeight v) /\
      cameraAspect v' = Some (innerWidth v / innerHeight v) /\
      innerWidth v' = innerWidth v /\ innerHeight v' = innerHeight v /\
      (innerWidth v <= 768 ->
       panel_expanded v' = false /\ scene_panel_expanded v' = false /\
       panel_toggle_text v' = "▲"%string) /\
      (768 < innerWidth v ->
       panel_expanded v' = panel_expanded v /\
       scene_panel_expanded v' = scene_panel_expanded v /\
       panel_toggle_text v' = panel_toggle_text v).
Proof.
  intros v a sz Ha Hs.
  destruct v as [w h rs ca pe se txt]. simpl in Ha, Hs. subst rs ca.
  unfold windowResized, initializeMobilePanel, onWindowResize. simpl.
  destruct (Rle_dec w 768) as [Hle | Hgt].
  - rewrite (lte_true w 768 Hle). simpl. rewrite (lte_true w 768 Hle). simpl.
    eexists. split; [reflexivity |]. simpl.
    repeat split; auto; intros; lra.
  - assert (Hlt : 768 < w) by lra.
    rewrite (lte_false w 768 Hlt). simpl. rewrite (lte_false w 768 Hlt).
    simpl. eexists. split; [reflexivity |]. simpl.
    repeat split; auto; intros; lra.
Qed.

Lemma windowResized_full_witness :
  exists v',
    windowResized
      {| innerWidth := 400; innerHeight := 800;
         rendererSize := Some (400, 800 * 0.5);
         cameraAspect := Some (400 / (800 * 0.5));
         panel_expanded := true; scene_panel_expanded := true;
         panel_toggle_text := "▼" |} = Some v' /\
    rendererSize v' = Some (400, 800) /\
    cameraAspect v' = Some (400 / 800).
Proof.
  destruct (windowResized_full
              {| innerWidth := 400; innerHeight := 800;
                 rendererSize := Some (400, 800 * 0.5);
                 cameraAspect := Some (400 / (800 * 0.5));
                 panel_expanded := true; scene_panel_expanded := true;
                 panel_toggle_text := "▼" |}
              (400 / (800 * 0.5)) (400, 800 * 0.5) eq_refl eq_refl)
    as (v' & H1 & H2 & H3 & _).
  exists v'. repeat split; assumption.
Defined.

(** X18: with a renderer and a camera, a tap on the panel (the toggle and
    the resize it schedules) flips the panel and leaves panel, scene
    container, toggle text, renderer size and camera aspect in agreement:
    half the window height when expanded, the full height when collapsed;
    from such a state two taps return to it. *)
Theorem tapPanel_consistent :
  forall (v : MainView) (a : R) (sz : R * R),
    cameraAspect v = Some a ->
    rendererSize v = Some sz ->
    panel_expanded (tapPanel v) = negb (panel_expanded v) /\
    panelConsistent (tapPanel v) /\
    (panelConsistent v -> tapPanel (tapPanel v) = v).
Proof.
  intros v a sz Ha Hs.
  destruct v as [w h rs ca pe se txt]. simpl in Ha, Hs. subst rs ca.
  unfold tapPanel, togglePanel, resizeRenderer, panelConsistent. simpl.
  destruct pe; simpl; repeat split; auto;
    intros (H1 & H2 & H3 & H4); subst; injection H3 as <-;
    injection H4 as <-; reflexivity.
Qed.

Lemma tapPanel_consistent_witness :
  panelConsistent
    (tapPanel {| innerWidth := 400; innerHeight := 800;
                 rendererSize := Some (400, 800);
                 cameraAspect := Some (400 / 800);
                 panel_expanded := false; scene_panel_expanded := false;
                 panel_toggle_text := "▲" |}).
Proof.
  apply (tapPanel_consistent
           {| innerWidth := 400; innerHeight := 800;
              rendererSize := Some (400, 800);
              cameraAspect := Some (400 / 800);
              panel_expanded := false; scene_panel_expanded := false;
              panel_toggle_text := "▲" |}
           (400 / 800) (400, 800) eq_refl eq_refl).
Defined.

(** ** Export: setting up the pair of shoes and undoing it *)

Lemma filter_fresh (l : list (nat * Object3D)) (i : nat) :
  (forall p, In p l -> (fst p < i)%nat) ->
  filter (fun p => negb (Nat.eqb (fst p) i)) l = l.
Proof.
  induction l as [| p rest IH]; intros H; simpl; [reflexivity |].
  assert (Hp : (fst p < i)%nat) by (apply H; left; reflexivity).
  replace (Nat.eqb (fst p) i) with false
    by (symmetry; apply Nat.eqb_neq; lia).
  simpl. rewrite IH; [reflexivity |].
  intros q Hq. apply H. right. exact Hq.
Qed.

(** X19: storing the camera, setting up the export view and restoring it
    leaves the scene's second shoes as they were, [tempSecondShoe] empty and
    the controls enabled, and hands the stored camera position and target to
    the controls' update; the loaded model, though, is not put back where it
    was: it ends at the origin with rotation 0 about Y and scale 0.36,
    whatever its position, Y rotation and scale before. *)
Theorem export_view_round_trip :
  forall (controlsUpdate : Vector3 * Vector3 -> Vector3 * Vector3)
         (st : Studio) (model : Object3D),
    loadedModel st = Some model ->
    (forall p, In p (sceneShoes st) -> (fst p < createdShoes st)%nat) ->
    let st' := restoreCameraPosition controlsUpdate
                 (setExportCameraPosition (storeCamera st)) in
    loadedModel st'
    = Some {| position := mkVector3 0 0 0;
              rotation := set_vy 0 (rotation model);
              scale := mkVector3 0.36 0.36 0.36;
              visible := visible model |} /\
    sceneShoes st' = sceneShoes st /\
    tempSecondShoe st' = None /\
    controlsEnabled st' = true /\
    (cameraPosition st', controlsTarget st')
    = controlsUpdate (cameraPosition st, controlsTarget st).
Proof.
  intros controlsUpdate st model Hm Hfresh.
  destruct st as [lm shoes n tmp cp ct en ocp oct].
  simpl in Hm, Hfresh. subst lm. cbv zeta.
  unfold restoreCameraPosition, setExportCameraPosition, storeCamera. simpl.
  split; [reflexivity |]. split.
  - rewrite filter_app. simpl. rewrite Nat.eqb_refl. simpl.
    rewrite app_nil_r. apply filter_fresh. exact Hfresh.
  - split; [reflexivity |]. split; [reflexivity |].
    destruct (controlsUpdate (cp, ct)); reflexivity.
Qed.

Lemma export_view_round_trip_witness :
  loadedModel
    (restoreCameraPosition (fun c => c)
       (setExportCameraPosition
          (storeCamera
             {| loadedModel :=
                  Some {| position := mkVector3 (-2) 1 0;
                          rotation := mkVector3 0 0 0;
                          scale := mkVector3 0.36 0.36 0.36;
                          visible := true |};
                sceneShoes := []; createdShoes := 0;
                tempSecondShoe := None;
                cameraPosition := mkVector3 15 15 15;
                controlsTarget := mkVector3 0 0 0;
                controlsEnabled := true;
                originalCameraPosition := None;
                originalCameraTarget := None |})))
  = Some {| position := mkVector3 0 0 0;
            rotation := set_vy 0 (mkVector3 0 0 0);
            scale := mkVector3 0.36 0.36 0.36;
            visible := true |}.
Proof.
  apply (export_view_round_trip (fun c => c)
           {| loadedModel :=
                Some {| position := mkVector3 (-2) 1 0;
                        rotation := mkVector3 0 0 0;
                        scale := mkVector3 0.36 0.36 0.36;
                        visible := true |};
              sceneShoes := []; createdShoes := 0;
              tempSecondShoe := None;
              cameraPosition := mkVector3 15 15 15;
              controlsTarget := mkVector3 0 0 0;
              controlsEnabled := true;
              originalCameraPosition := None;
              originalCameraTarget := None |}
           {| position := mkVector3 (-2) 1 0;
              rotation := mkVector3 0 0 0;
              scale := mkVector3 0.36 0.36 0.36;
              visible := true |} eq_refl).
  intros p [].
Defined.

(** ** The rest of the body *)

(** X20: the pose callback reads nothing of a landmark array but whether
    it has at least 33 entries and its slots 27 to 32: two arrays of at
    least 33 entries that agree on those six slots leave the same state. *)
Theorem onPoseResults_reads_foot_slots_only :
  forall (l l' : list (option Landmark)) (s : ARState),
    (33 <= List.length l)%nat ->
    (33 <= List.length l')%nat ->
    (forall i, (27 <= i <= 32)%nat -> nth_error l i = nth_error l' i) ->
    onPoseResults {| poseLandmarks := Some l |} s
    = onPoseResults {| poseLandmarks := Some l' |} s.
Proof.
  intros l l' s Hlen Hlen' Hslots.
  unfold onPoseResults. cbn [poseLandmarks].
  replace (33 <=? List.length l)%nat with true
    by (symmetry; apply Nat.leb_le; exact Hlen).
  replace (33 <=? List.length l')%nat with true
    by (symmetry; apply Nat.leb_le; exact Hlen').
  unfold visibleLandmark. rewrite !Hslots by lia. reflexivity.
Qed.

Lemma onPoseResults_reads_foot_slots_only_witness :
  onPoseResults
    {| poseLandmarks := Some (Some ankleLevel :: tl lockedLandmarks) |}
    activeSession
  = onPoseResults
      {| poseLandmarks := Some (lockedLandmarks ++ [Some toeLevel]) |}
      activeSession.
Proof.
  apply (onPoseResults_reads_foot_slots_only
           (Some ankleLevel :: tl lockedLandmarks)
           (lockedLandmarks ++ [Some toeLevel]) activeSession).
  - simpl. lia.
  - simpl. lia.
  - intros i Hi.
    do 27 (destruct i as [| i]; [lia |]).
    do 6 (destruct i as [| i]; [reflexivity |]). lia.
Defined.
